(** * createEpicycloid: the geodesic epicycloid engine of the Shape Tools plugin

    A shallow embedding of [CreateEpicycloidAlgorithm.processAlgorithm]
    (createEpicycloid.py).  Python floats are IEEE 754 binary64 numbers and
    are modelled by the kernel's primitive floats, so the sampling loop
    [while angle <= 360.0: ... angle += step] is evaluated with the very
    roundings the interpreter performs.  Python integers are [Z].  Exceptions
    are values of a small result monad; the [while] loop takes fuel.  The
    collaborators supplied by the host (C library, geodesic solver,
    coordinate transforms, unit table, text conversions, the plugin's
    antimeridian normalizer) are the fields of the class [Host].  The state
    of the feature loop is passed explicitly: the sink, the counter of bad
    features and, to count the calls of [isCanceled], the number of checks
    made.  Progress reporting is modelled beside the loop, as the list
    of the values reported. *)

From Stdlib Require Import ZArith List Ascii String Bool Lia.
From Stdlib Require Import PrimFloat SpecFloat FloatOps.
Import ListNotations.

Set Implicit Arguments.

(** ** Results of a computation *)

(** The exceptions the modelled code can meet.  [GeodesicError] stands for
    whatever the geodesic solver raises, [TransformError] for the
    coordinate transform's exception. *)
Inductive exn : Type :=
| ValueError
| TypeError
| KeyError
| ZeroDivisionError
| OverflowError
| GeodesicError
| TransformError.

(** A computation returns, raises, or exhausts the fuel given to a
    [while] loop. *)
Inductive comp (A : Type) : Type :=
| Ret (a : A)
| Raise (e : exn)
| OutOfFuel.

Arguments Ret {A} a.
Arguments Raise {A} e.
Arguments OutOfFuel {A}.

Definition bind {A B : Type} (c : comp A) (k : A -> comp B) : comp B :=
  match c with
  | Ret a => k a
  | Raise e => Raise e
  | OutOfFuel => OutOfFuel
  end.

Notation "x <- c ;; k" := (bind c (fun x => k))
  (at level 61, c at next level, right associativity).
Notation "' pat <- c ;; k" := (bind c (fun x => match x with pat => k end))
  (at level 61, pat pattern, c at next level, right associativity).

Definition lift_option {A : Type} (e : exn) (o : option A) : comp A :=
  match o with
  | Some a => Ret a
  | None => Raise e
  end.

(** The computation ends without running out of fuel. *)
Definition returns_or_raises (A : Type) (c : comp A) : Prop :=
  (exists a, c = Ret a) \/ (exists e, c = Raise e).

Fixpoint mapM {A B : Type} (f : A -> comp B) (l : list A) : comp (list B) :=
  match l with
  | [] => Ret []
  | a :: l' => b <- f a ;; bs <- mapM f l' ;; Ret (b :: bs)
  end.

(** ** Python numbers *)

Module Py.

(** [float(n)] for an integer [n], also the conversion [n + 1.0]
    performs on its left operand: rounded to nearest even, and
    [OverflowError] when the result does not fit a double. *)
Definition float_of_int (n : Z) : comp float :=
  let f := SF2Prim (binary_normalize prec emax n 0 false) in
  if is_infinity f then Raise OverflowError else Ret f.

(** [int(x)] for a float [x]: truncation towards zero; NaN and the
    infinities have no integer value. *)
Definition int_of_float (x : float) : comp Z :=
  match Prim2SF x with
  | S754_nan => Raise ValueError
  | S754_infinity _ => Raise OverflowError
  | S754_zero _ => Ret 0%Z
  | S754_finite s m e =>
      let mag := (if 0 <=? e then Z.pos m * 2 ^ e else Z.pos m / 2 ^ (- e))%Z in
      Ret (if s then (- mag)%Z else mag)
  end.

(** [n + y] with [n] an integer and [y] a float. *)
Definition int_add_float (n : Z) (y : float) : comp float :=
  x <- float_of_int n ;; Ret (x + y)%float.

(** [x / y] on floats: a zero divisor (of either sign) raises. *)
Definition truediv (x y : float) : comp float :=
  if (y =? 0)%float then Raise ZeroDivisionError else Ret (x / y)%float.

(** [math.radians] and [math.degrees] multiply by a constant computed
    from the double nearest to pi. *)
Definition pi : float := 0x1.921fb54442d18p+1%float.
Definition degToRad : float := (pi / 180)%float.
Definition radToDeg : float := (180 / pi)%float.
Definition radians (x : float) : float := (x * degToRad)%float.
Definition degrees (x : float) : float := (x * radToDeg)%float.

(** The wrapper the [math] module puts around a C library function of
    one argument that cannot overflow ([cos], [sin], [sqrt]): a NaN out
    of a number, or an infinity out of a finite number, is a domain
    error. *)
Definition math_1 (f : float -> float) (x : float) : comp float :=
  let r := f x in
  if is_nan r && negb (is_nan x) then Raise ValueError
  else if is_infinity r && is_finite x then Raise ValueError
  else Ret r.

Definition math_sqrt : float -> comp float := math_1 PrimFloat.sqrt.

(** A non-empty string is true. *)
Definition truthy (s : string) : bool :=
  match s with
  | EmptyString => false
  | String _ _ => true
  end.

End Py.

(** ** Data of the host application *)

Record QgsPointXY : Type := mkPoint { px : float; py : float }.

(** An attribute value as Python sees it: the null variant, an integer,
    a double or a string. *)
Inductive QVariant : Type :=
| NULL
| QInt (n : Z)
| QDouble (v : float)
| QString (s : string).

Inductive QVariantType : Type := TInt | TDouble | TString.

Record QgsField : Type := mkField { field_name : string; field_type : QVariantType }.

Inductive QgsGeometry : Type :=
| PointGeometry (p : QgsPointXY)
| fromPolygonXY (rings : list (list QgsPointXY))
| fromPolylineXY (line : list QgsPointXY).

Record QgsFeature : Type := mkFeature {
  attributes : list QVariant;
  geometry : QgsGeometry
}.

Inductive WkbType : Type := WkbPolygon | WkbLineString.

(** A coordinate reference system is compared by its authority id. *)
Definition crs : Type := string.
Definition epsg4326 : crs := "EPSG:4326"%string.

Record FeatureSource : Type := mkSource {
  sourceCrs : crs;
  fields : list QgsField;
  featureCount : Z;
  getFeatures : list QgsFeature
}.

(** The values [parameterAs...] reads from the run's parameters. *)
Record Parameters : Type := mkParameters {
  shapetype : Z;
  lobescol : string;
  startanglecol : string;
  radiuscol : string;
  radius : float;
  startAngle : float;
  lobes : Z;
  segments : Z;
  units : Z;
  export_geom : bool
}.

(** [feedback.isCanceled()], as a function of the number of earlier
    calls. *)
Record Feedback : Type := mkFeedback { isCanceled : nat -> bool }.

(** What the host supplies: the text conversions behind [int(str)] and
    [float(str)], the C library, the unit table and field naming of
    the plugin's other modules, the geodesic solver ([lat1], [lon1],
    azimuth, distance to [(lat2, lon2)]), the point transform between
    two reference systems, and the antimeridian normalizer of the
    plugin's [utils] module as its effect on the point list. *)
Class Host : Type := mkHost {
  str_to_int : string -> option Z;
  str_to_float : string -> option float;
  libm_cos : float -> float;
  libm_sin : float -> float;
  libm_atan2 : float -> float -> float;
  conversionToMeters : Z -> float;
  getGeomNames : list string -> string * string;
  geod_Direct : float -> float -> float -> float -> option (float * float);
  transform : crs -> crs -> QgsPointXY -> option QgsPointXY;
  makeIdlCrossingsPositive : list QgsPointXY -> list QgsPointXY
}.

(** State of the feature loop: the sink, the counter of rejected
    features, and the number of cancellation checks made so far. *)
Record LoopState : Type := mkState {
  sink : list QgsFeature;
  numbad : nat;
  checks : nat
}.

(** How the feature loop ends: by exhausting the iterator, by [break]
    on cancellation, by an exception no handler catches, or by a
    sampling loop that outlives its fuel. *)
Inductive status : Type :=
| Completed
| Cancelled
| Failed (e : exn)
| Timeout.

(** Parameters resolved for one feature (the [try] block). *)
Record PerFeature : Type := mkPerFeature {
  sangle : float;
  lobes2 : Z;
  radius2 : float;
  r : float
}.

(** Values computed once, before the loop. *)
Record RunLevel : Type := mkRunLevel {
  measureFactor : float;
  radius_m : float;
  r2 : float;
  step : float
}.

Record Outcome : Type := mkOutcome {
  result : status;
  sink_fields : list QgsField;
  sink_type : WkbType;
  final : LoopState;
  pushInfo : option (nat * Z)
}.

Definition bump_check (st : LoopState) : LoopState :=
  mkState (sink st) (numbad st) (S (checks st)).

Definition reject (st : LoopState) : LoopState :=
  mkState (sink st) (S (numbad st)) (checks st).

Definition addFeature (f : QgsFeature) (st : LoopState) : LoopState :=
  mkState (sink st ++ [f]) (numbad st) (checks st).

Definition asPoint (g : QgsGeometry) : comp QgsPointXY :=
  match g with
  | PointGeometry p => Ret p
  | _ => Raise TypeError
  end.

Fixpoint lookupField (name : string) (fs : list QgsField) (i : nat) : option nat :=
  match fs with
  | [] => None
  | f :: fs' => if String.eqb (field_name f) name then Some i else lookupField name fs' (S i)
  end.

(** [feature[name]]. *)
Definition getitem (fs : list QgsField) (feature : QgsFeature) (name : string) : comp QVariant :=
  i <- lift_option KeyError (lookupField name fs 0) ;;
  lift_option KeyError (nth_error (attributes feature) i).

(** ** The algorithm *)

Section Algorithm.

Context {host : Host}.

Open Scope float_scope.

(** [float(v)] and [int(v)] on an attribute value. *)
Definition py_float (v : QVariant) : comp float :=
  match v with
  | NULL => Raise TypeError
  | QInt n => Py.float_of_int n
  | QDouble x => Ret x
  | QString s => lift_option ValueError (str_to_float s)
  end.

Definition py_int (v : QVariant) : comp Z :=
  match v with
  | NULL => Raise TypeError
  | QInt n => Ret n
  | QDouble x => Py.int_of_float x
  | QString s => lift_option ValueError (str_to_int s)
  end.

Definition math_cos : float -> comp float := Py.math_1 libm_cos.
Definition math_sin : float -> comp float := Py.math_1 libm_sin.

(** Lines 156-158 and 183: unit conversion, the run-level scale radius
    and the angular step. *)
Definition run_level (P : Parameters) : comp RunLevel :=
  let measureFactor := conversionToMeters (units P) in
  let radius := radius P * measureFactor in
  d <- Py.int_add_float (lobes P) 2 ;;
  r2 <- Py.truediv radius d ;;
  s <- Py.float_of_int (segments P) ;;
  step <- Py.truediv 360 s ;;
  Ret (mkRunLevel measureFactor radius r2 step).

(** Lines 162-166: the schema of the sink. *)
Definition output_fields (P : Parameters) (source : FeatureSource) : list QgsField :=
  if export_geom P then
    let names := map field_name (fields source) in
    let '(name_x, name_y) := getGeomNames names in
    fields source ++ [mkField name_x TDouble; mkField name_y TDouble]
  else fields source.

(** Lines 167-174. *)
Definition output_type (P : Parameters) : WkbType :=
  if (shapetype P =? 0)%Z then WkbPolygon else WkbLineString.

(** Lines 190-205, the body of the [try] block. *)
Definition resolve (P : Parameters) (rl : RunLevel) (fs : list QgsField)
    (feature : QgsFeature) : comp PerFeature :=
  sangle <- (if Py.truthy (startanglecol P)
             then v <- getitem fs feature (startanglecol P) ;; py_float v
             else Ret (startAngle P)) ;;
  lobes2 <- (if Py.truthy (lobescol P)
             then v <- getitem fs feature (lobescol P) ;; py_int v
             else Ret (lobes P)) ;;
  radius2 <- (if Py.truthy (radiuscol P)
              then v <- getitem fs feature (radiuscol P) ;;
                   x <- py_float v ;; Ret (x * measureFactor rl)
              else Ret (radius_m rl)) ;;
  r <- (if Py.truthy (lobescol P) || Py.truthy (radiuscol P)
        then d <- Py.int_add_float lobes2 2 ;; Py.truediv radius2 d
        else Ret (r2 rl)) ;;
  Ret (mkPerFeature sangle lobes2 radius2 r).

(** Lines 218-222: the bearing and distance of one sample. *)
Definition sample_pair (r : float) (lobes2 : Z) (sangle angle : float)
    : comp (float * float) :=
  let a := Py.radians angle in
  l1 <- Py.int_add_float lobes2 1 ;;
  ca <- math_cos a ;;
  cb <- math_cos (l1 * a) ;;
  let x := r * l1 * ca - r * cb in
  sa <- math_sin a ;;
  sb <- math_sin (l1 * a) ;;
  let y := r * l1 * sa - r * sb in
  let a2 := Py.degrees (libm_atan2 y x) + sangle in
  dist <- Py.math_sqrt (x * x + y * y) ;;
  Ret (a2, dist).

(** Lines 223-224: the direct geodesic problem from the anchor. *)
Definition sample_point (r : float) (lobes2 : Z) (sangle : float)
    (pt : QgsPointXY) (angle : float) : comp QgsPointXY :=
  '(a2, dist) <- sample_pair r lobes2 sangle angle ;;
  '(lat2, lon2) <- lift_option GeodesicError (geod_Direct (py pt) (px pt) a2 dist) ;;
  Ret (mkPoint lon2 lat2).

(** Lines 217-225: [while angle <= 360.0]. *)
Fixpoint sample_loop (fuel : nat) (r : float) (lobes2 : Z) (sangle : float)
    (pt : QgsPointXY) (step angle : float) (pts : list QgsPointXY)
    : comp (list QgsPointXY) :=
  match fuel with
  | O => OutOfFuel
  | S fuel' =>
      if angle <=? 360 then
        p <- sample_point r lobes2 sangle pt angle ;;
        sample_loop fuel' r lobes2 sangle pt step (angle + step) (pts ++ [p])
      else Ret pts
  end.

(** Lines 209-242: the geometry and attributes of an accepted feature. *)
Definition build_feature (fuel : nat) (P : Parameters) (rl : RunLevel)
    (srcCRS : crs) (feature : QgsFeature) (pf : PerFeature) : comp QgsFeature :=
  pt <- asPoint (geometry feature) ;;
  let pt_orig_x := px pt in
  let pt_orig_y := py pt in
  pt <- (if negb (String.eqb srcCRS epsg4326)
         then lift_option TransformError
                (transform srcCRS epsg4326 (mkPoint (px pt) (py pt)))
         else Ret pt) ;;
  pts <- sample_loop fuel (r pf) (lobes2 pf) (sangle pf) pt (step rl) 0 [] ;;
  let pts := makeIdlCrossingsPositive pts in
  pts <- (if negb (String.eqb srcCRS epsg4326)
          then mapM (fun ptout => lift_option TransformError
                                    (transform epsg4326 srcCRS ptout)) pts
          else Ret pts) ;;
  let geom := if (shapetype P =? 0)%Z then fromPolygonXY [pts] else fromPolylineXY pts in
  let attr := attributes feature in
  let attr := if export_geom P
              then (attr ++ [QDouble pt_orig_x]) ++ [QDouble pt_orig_y]
              else attr in
  Ret (mkFeature attr geom).

(** Lines 186-243: the loop over the features.  Progress reporting
    (lines 245-246) changes nothing the loop reads; the loop with it
    is [feature_loop_reporting]. *)
Fixpoint feature_loop (fuel : nat) (P : Parameters) (rl : RunLevel)
    (source : FeatureSource) (feedback : Feedback)
    (iterator : list QgsFeature) (st : LoopState) : status * LoopState :=
  match iterator with
  | [] => (Completed, st)
  | feature :: rest =>
      if isCanceled feedback (checks st) then (Cancelled, bump_check st)
      else
        let st := bump_check st in
        match resolve P rl (fields source) feature with
        | Raise _ => feature_loop fuel P rl source feedback rest (reject st)
        | OutOfFuel => (Timeout, st)
        | Ret pf =>
            match build_feature fuel P rl (sourceCrs source) feature pf with
            | Ret f => feature_loop fuel P rl source feedback rest (addFeature f st)
            | Raise e => (Failed e, st)
            | OutOfFuel => (Timeout, st)
            end
        end
  end.

Definition initial : LoopState := mkState [] 0 0.

(** Lines 248-249. *)
Definition report (source : FeatureSource) (s : status) (st : LoopState)
    : option (nat * Z) :=
  match s with
  | Completed | Cancelled =>
      if (0 <? numbad st)%nat then Some (numbad st, featureCount source) else None
  | _ => None
  end.

Definition processAlgorithm (fuel : nat) (P : Parameters)
    (source : FeatureSource) (feedback : Feedback) : Outcome :=
  let flds := output_fields P source in
  let wkb := output_type P in
  match run_level P with
  | Ret rl =>
      let '(s, st) := feature_loop fuel P rl source feedback (getFeatures source) initial in
      mkOutcome s flds wkb st (report source s st)
  | Raise e => mkOutcome (Failed e) flds wkb initial None
  | OutOfFuel => mkOutcome Timeout flds wkb initial None
  end.

(** The values [angle] takes in the sampling loop. *)
Fixpoint sample_angles (fuel : nat) (step angle : float) : comp (list float) :=
  match fuel with
  | O => OutOfFuel
  | S fuel' =>
      if angle <=? 360 then
        l <- sample_angles fuel' step (angle + step) ;; Ret (angle :: l)
      else Ret []
  end.

End Algorithm.

(** ** Counting the samples *)

(** The number of angles the loop visits for a segment count, given
    two turns more than the segments as fuel. *)
Definition sample_count (segments : Z) : comp nat :=
  s <- Py.float_of_int segments ;;
  st <- Py.truediv 360 s ;;
  l <- sample_angles (Z.to_nat segments + 2) st 0 ;;
  Ret (List.length l).

(** The loop visits [segments + 1] angles, or only [segments]. *)
Definition closes (segments : Z) : bool :=
  match sample_count segments with
  | Ret n => Nat.eqb n (Z.to_nat segments + 1)
  | _ => false
  end.

Definition falls_short (segments : Z) : bool :=
  match sample_count segments with
  | Ret n => Nat.eqb n (Z.to_nat segments)
  | _ => false
  end.

(** The segment counts 4, 5, ..., 2000. *)
Definition segment_range : list Z := map Z.of_nat (seq 4 1997).

(** ** The antimeridian normalizer *)

Module Utils.

Open Scope float_scope.

(** A jump of more than 180 degrees of longitude between two
    consecutive points. *)
Fixpoint hasIdlJump (pts : list QgsPointXY) : bool :=
  match pts with
  | [] => false
  | p :: rest =>
      match rest with
      | [] => false
      | q :: _ => (180 <? abs (px q - px p)) || hasIdlJump rest
      end
  end.

Definition makePositive (p : QgsPointXY) : QgsPointXY :=
  if px p <? 0 then mkPoint (px p + 360) (py p) else p.

(** A stand-in for [makeIdlCrossingsPositive] of the plugin's [utils]
    module, which is not among the sources: the source imports it
    (line 23) and calls it on the raw point list (line 227).  It is
    one normalizer of the kind the spec (4.4) describes, adding 360 to
    the negative longitudes of a list with a jump of more than 180
    degrees; the spec admits others, shifting other points or the
    other way.  It only completes the host the model is run on:
    nothing is claimed about the plugin's function from it. *)
Definition makeIdlCrossingsPositive (pts : list QgsPointXY) : list QgsPointXY :=
  if hasIdlJump pts then map makePositive pts else pts.

(** What the spec's testable property asks of a normalizer [f] on a
    ring [pts]. *)
Definition shifted (p q : QgsPointXY) : Prop :=
  py q = py p /\ (px q = px p \/ px q = px p + 360 \/ px q = px p - 360).

Definition normalized_by (f : list QgsPointXY -> list QgsPointXY)
    (pts : list QgsPointXY) : Prop :=
  hasIdlJump pts = true ->
  List.length (f pts) = List.length pts /\ hasIdlJump (f pts) = false /\ Forall2 shifted pts (f pts).

(** A path that winds three times around the pole in steps of 179
    degrees. *)
Definition three_windings : list QgsPointXY :=
  map (fun x => mkPoint x 80) [0; 179; -2; 177; -4; 175; -6].

(** The points a shift by 360 degrees can make of [p], and the rings
    it can make of [pts]. *)
Definition candidates (p : QgsPointXY) : list QgsPointXY :=
  [mkPoint (px p) (py p); mkPoint (px p + 360) (py p); mkPoint (px p - 360) (py p)].

Fixpoint all_shifts (pts : list QgsPointXY) : list (list QgsPointXY) :=
  match pts with
  | [] => [[]]
  | p :: rest => flat_map (fun tl => map (fun q => q :: tl) (candidates p)) (all_shifts rest)
  end.

End Utils.

(** ** A host to run the model on

    A small, fully computable stand-in for the host: decimal integer
    text, series for the circular functions, a local (equirectangular)
    direct solver, a reference system in units of 1e-5 degree, and the
    normalizer of [Utils].  It serves to evaluate the model on
    concrete layers.  The text conversions read plain decimal
    integers only, fewer texts than Python's [int] and [float] accept
    (surrounding blanks, a plus sign, a fraction or an exponent). *)

Module Demo.

Open Scope float_scope.

Fixpoint digits (s : string) (acc : Z) : option Z :=
  match s with
  | EmptyString => Some acc
  | String c s' =>
      let n := Z.of_nat (Ascii.nat_of_ascii c) in
      if ((48 <=? n) && (n <=? 57))%Z then digits s' (10 * acc + (n - 48))%Z else None
  end.

Definition parse_int (s : string) : option Z :=
  match s with
  | EmptyString => None
  | String c s' =>
      if Ascii.eqb c "-"%char
      then match s' with
           | EmptyString => None
           | _ => option_map Z.opp (digits s' 0)
           end
      else digits s 0
  end.

Definition parse_float (s : string) : option float :=
  match parse_int s with
  | Some n => match Py.float_of_int n with Ret x => Some x | _ => None end
  | None => None
  end.

Definition trunc (x : float) : float :=
  match Py.int_of_float x with
  | Ret n => match Py.float_of_int n with Ret t => t | _ => x end
  | _ => x
  end.

Definition two_pi : float := 2 * Py.pi.
Definition half_pi : float := Py.pi / 2.

Definition reduce (x : float) : float := x - trunc (x / two_pi) * two_pi.

Fixpoint horner (n : nat) (k x2 : float) : float :=
  match n with
  | O => 1
  | S n' => 1 - x2 / (k * (k + 1)) * horner n' (k + 2) x2
  end.

Definition cos (x : float) : float :=
  let t := reduce x in horner 24 1 (t * t).

Definition sin (x : float) : float :=
  let t := reduce x in t * horner 24 2 (t * t).

Fixpoint atan_series (n : nat) (k t2 : float) : float :=
  match n with
  | O => 1 / k
  | S n' => 1 / k - t2 * atan_series n' (k + 2) t2
  end.

Definition halve (t : float) : float := t / (1 + sqrt (1 + t * t)).

Definition atan_unit (t : float) : float :=
  let u := halve (halve t) in 4 * (u * atan_series 14 1 (u * u)).

Definition atan_pos (t : float) : float :=
  if t <=? 1 then atan_unit t else half_pi - atan_unit (1 / t).

Definition atan2 (y x : float) : float :=
  if x =? 0 then
    if y =? 0 then 0 else if 0 <? y then half_pi else - half_pi
  else
    let a := atan_pos (abs (y / x)) in
    if 0 <? x then (if 0 <=? y then a else - a)
    else (if 0 <=? y then Py.pi - a else a - Py.pi).

Definition to_meters (u : Z) : float :=
  if (u =? 0)%Z then 1000 else 1.

Definition geom_names (names : list string) : string * string :=
  ("geom_x"%string, "geom_y"%string).

Definition earth_radius : float := 6371000.

(** The solver never raises: as the geodesic library the plugin uses,
    it answers NaN for a latitude outside [-90, 90] or a distance
    that is not finite. *)
Definition direct (lat1 lon1 azi1 s12 : float) : option (float * float) :=
  if is_finite s12 && (abs lat1 <=? 90) then
    let a := Py.radians azi1 in
    let dlat := Py.degrees (s12 * cos a / earth_radius) in
    let dlon := Py.degrees (s12 * sin a / (earth_radius * cos (Py.radians lat1))) in
    Some (lat1 + dlat, lon1 + dlon)
  else Some (nan, nan).


Definition reproject (src dst : crs) (p : QgsPointXY) : option QgsPointXY :=
  if String.eqb src dst then Some p
  else if String.eqb dst epsg4326 then Some (mkPoint (px p / 100000) (py p / 100000))
  else if String.eqb src epsg4326 then Some (mkPoint (px p * 100000) (py p * 100000))
  else None.

Definition host : Host :=
  mkHost parse_int parse_float cos sin atan2 to_meters geom_names direct reproject
         Utils.makeIdlCrossingsPositive.


(** A layer in EPSG:4326 with three attributes. *)
Definition layer_fields : list QgsField :=
  [mkField "name" TString; mkField "lobes" TInt; mkField "radius" TDouble].

Definition feature (name : string) (l r : QVariant) (x y : float) : QgsFeature :=
  mkFeature [QString name; l; r] (PointGeometry (mkPoint x y)).

Definition layer (fs : list QgsFeature) : FeatureSource :=
  mkSource epsg4326 layer_fields (Z.of_nat (List.length fs)) fs.

(** The same layer stored in the reference system of [reproject]. *)
Definition local_crs : crs := "DEMO:1"%string.

Definition local_layer (fs : list QgsFeature) : FeatureSource :=
  mkSource local_crs layer_fields (Z.of_nat (List.length fs)) fs.

(** Five lobes, 40 km, four segments, no override field. *)
Definition defaults : Parameters :=
  mkParameters 0 "" "" "" 40 0 5 4 0 false.

Definition with_lobes_field (P : Parameters) : Parameters :=
  mkParameters (shapetype P) "lobes" (startanglecol P) (radiuscol P) (radius P)
    (startAngle P) (lobes P) (segments P) (units P) (export_geom P).

Definition with_radius_field (P : Parameters) : Parameters :=
  mkParameters (shapetype P) (lobescol P) (startanglecol P) "radius" (radius P)
    (startAngle P) (lobes P) (segments P) (units P) (export_geom P).

Definition with_export (P : Parameters) : Parameters :=
  mkParameters (shapetype P) (lobescol P) (startanglecol P) (radiuscol P) (radius P)
    (startAngle P) (lobes P) (segments P) (units P) true.

Definition with_segments (n : Z) (P : Parameters) : Parameters :=
  mkParameters (shapetype P) (lobescol P) (startanglecol P) (radiuscol P) (radius P)
    (startAngle P) (lobes P) n (units P) (export_geom P).

Definition never : Feedback := mkFeedback (fun _ => false).
Definition cancel_at (n : nat) : Feedback := mkFeedback (fun i => Nat.eqb i n).

(** The values the run computes for [P], for a feature of [source],
    and the feature it builds (defaults where the run raises). *)
Definition run_of (P : Parameters) : RunLevel :=
  match run_level (host := host) P with
  | Ret rl => rl
  | _ => mkRunLevel 0 0 0 0
  end.

Definition resolved (P : Parameters) (source : FeatureSource) (f : QgsFeature)
    : PerFeature :=
  match resolve (host := host) P (run_of P) (fields source) f with
  | Ret pf => pf
  | _ => mkPerFeature 0 0 0 0
  end.

Definition built (fuel : nat) (P : Parameters) (source : FeatureSource)
    (f : QgsFeature) : QgsFeature :=
  match build_feature (host := host) fuel P (run_of P) (sourceCrs source) f
          (resolved P source f) with
  | Ret g => g
  | _ => f
  end.

(** Some features: two well formed ones, one with a lobe count of
    zero, one with text where the lobe count should be, one with a
    lobe count of -2, and one at a latitude of 95 degrees, where the
    solver has no answer but NaN. *)
Definition fa : QgsFeature := feature "a" (QInt 3) (QDouble 2) 10 20.
Definition fb : QgsFeature := feature "b" (QInt 4) (QDouble 5) (-30) 40.
Definition f_zero : QgsFeature := feature "zero" (QInt 0) (QDouble 2) 10 20.
Definition f_text : QgsFeature := feature "text" (QString "many") (QDouble 2) 10 20.
Definition f_minus2 : QgsFeature := feature "minus2" (QInt (-2)) (QDouble 2) 10 20.
Definition f_same : QgsFeature := feature "same" (QInt 5) (QDouble 40) 10 20.
Definition f_local : QgsFeature := feature "local" (QInt 3) (QDouble 2) 1000000 2000000.

(** The first sample of a run with [P]: bearing and distance. *)
Definition first_pair (P : Parameters) (source : FeatureSource) (f : QgsFeature)
    : float * float :=
  let pf := resolved P source f in
  match sample_pair (host := host) (r pf) (lobes2 pf) (sangle pf) 0 with
  | Ret p => p
  | _ => (0, 0)
  end.

(** The points of the shape built for [f] with [n] segments. *)
Definition ring_with (n : Z) (f : QgsFeature) : list QgsPointXY :=
  match geometry (built (Z.to_nat n + 2) (with_segments n defaults) (layer [f]) f) with
  | fromPolygonXY [ring] => ring
  | fromPolylineXY line => line
  | _ => []
  end.

(** A lobes field the layer does not have, and another default lobe
    count. *)
Definition with_unknown_lobes_field (P : Parameters) : Parameters :=
  mkParameters (shapetype P) "height" (startanglecol P) (radiuscol P) (radius P)
    (startAngle P) (lobes P) (segments P) (units P) (export_geom P).

Definition with_lobes (n : Z) (P : Parameters) : Parameters :=
  mkParameters (shapetype P) (lobescol P) (startanglecol P) (radiuscol P) (radius P)
    (startAngle P) n (segments P) (units P) (export_geom P).

(** A layer of three features, the second with text for a lobe count,
    read with the lobes field configured. *)
Definition mixed_parameters : Parameters := with_lobes_field defaults.
Definition mixed_layer : FeatureSource := layer [fa; f_text; fb].
Definition mixed_run : Outcome :=
  processAlgorithm (host := host) 6 mixed_parameters mixed_layer never.

(** The state the loop reaches on [fs]. *)
Definition state_after (fuel : nat) (P : Parameters) (fb : Feedback)
    (fs : list QgsFeature) : LoopState :=
  snd (feature_loop (host := host) fuel P (run_of P) (layer fs) fb fs initial).

End Demo.

(** ** The sampler as the spec words it *)

Section SamplerSpec.

Context {host : Host}.

Open Scope float_scope.

(** x = r*(lobes+1)*cos(theta) - r*cos((lobes+1)*theta) *)
Definition spec_x (r lobes theta : float) : float :=
  r * (lobes + 1) * libm_cos theta - r * libm_cos ((lobes + 1) * theta).

(** y = r*(lobes+1)*sin(theta) - r*sin((lobes+1)*theta) *)
Definition spec_y (r lobes theta : float) : float :=
  r * (lobes + 1) * libm_sin theta - r * libm_sin ((lobes + 1) * theta).

(** bearing = atan2(y, x) in degrees + startingAngle *)
Definition spec_bearing (r lobes startingAngle theta : float) : float :=
  Py.degrees (libm_atan2 (spec_y r lobes theta) (spec_x r lobes theta)) + startingAngle.

(** distance = sqrt(x^2 + y^2) *)
Definition spec_distance (r lobes theta : float) : float :=
  let x := spec_x r lobes theta in
  let y := spec_y r lobes theta in
  sqrt (x * x + y * y).

(** The solver is asked for the destination at the spec's bearing and
    distance from the anchor [pt], and answers [p]. *)
Definition solved_from (pt : QgsPointXY) (r lobes startingAngle : float)
    (angle : float) (p : QgsPointXY) : Prop :=
  let theta := Py.radians angle in
  exists lat2 lon2,
    geod_Direct (py pt) (px pt)
      (spec_bearing r lobes startingAngle theta) (spec_distance r lobes theta)
      = Some (lat2, lon2)
    /\ p = mkPoint lon2 lat2.

End SamplerSpec.

(** ** The stages of the loop body *)

Section Stages.

Context {host : Host}.

Open Scope float_scope.

(** The anchor in EPSG:4326 (lines 210-215). *)
Definition anchor (srcCRS : crs) (feature : QgsFeature) : comp QgsPointXY :=
  pt <- asPoint (geometry feature) ;;
  if negb (String.eqb srcCRS epsg4326)
  then lift_option TransformError (transform srcCRS epsg4326 (mkPoint (px pt) (py pt)))
  else Ret pt.

(** Lines 229-231. *)
Definition to_sink (srcCRS : crs) (pts : list QgsPointXY) : comp (list QgsPointXY) :=
  if negb (String.eqb srcCRS epsg4326)
  then mapM (fun ptout => lift_option TransformError (transform epsg4326 srcCRS ptout)) pts
  else Ret pts.

(** Lines 233-237. *)
Definition shape (P : Parameters) (pts : list QgsPointXY) : QgsGeometry :=
  if (shapetype P =? 0)%Z then fromPolygonXY [pts] else fromPolylineXY pts.

(** Lines 238-241. *)
Definition output_attributes (P : Parameters) (feature : QgsFeature)
    (pt0 : QgsPointXY) : list QVariant :=
  if export_geom P
  then (attributes feature ++ [QDouble (px pt0)]) ++ [QDouble (py pt0)]
  else attributes feature.

(** The ring of a feature is complete: it is the shape built from the
    normalized, reprojected destinations of all the sampled angles. *)
Definition complete_geometry (fuel : nat) (P : Parameters) (rl : RunLevel)
    (srcCRS : crs) (f : QgsFeature) : Prop :=
  exists angles raw pts,
    sample_angles fuel (step rl) 0 = Ret angles
    /\ List.length raw = List.length angles
    /\ to_sink srcCRS (makeIdlCrossingsPositive raw) = Ret pts
    /\ geometry f = shape P pts.


(** The four steps of the [try] block. *)
Definition sangle_of (P : Parameters) (fs : list QgsField) (feature : QgsFeature)
    : comp float :=
  if Py.truthy (startanglecol P)
  then v <- getitem fs feature (startanglecol P) ;; py_float v
  else Ret (startAngle P).

Definition lobes_of (P : Parameters) (fs : list QgsField) (feature : QgsFeature)
    : comp Z :=
  if Py.truthy (lobescol P)
  then v <- getitem fs feature (lobescol P) ;; py_int v
  else Ret (lobes P).

Definition radius_of (P : Parameters) (rl : RunLevel) (fs : list QgsField)
    (feature : QgsFeature) : comp float :=
  if Py.truthy (radiuscol P)
  then v <- getitem fs feature (radiuscol P) ;;
       x <- py_float v ;; Ret (x * measureFactor rl)
  else Ret (radius_m rl).

Definition scale_of (P : Parameters) (rl : RunLevel) (lobes2 : Z) (radius2 : float)
    : comp float :=
  if Py.truthy (lobescol P) || Py.truthy (radiuscol P)
  then d <- Py.int_add_float lobes2 2 ;; Py.truediv radius2 d
  else Ret (r2 rl).

(** The override field [col] is configured and the feature's value in
    it is not accepted by the conversion [conv]. *)
Definition unparsable (A : Type) (conv : QVariant -> comp A) (fs : list QgsField)
    (feature : QgsFeature) (col : string) : Prop :=
  Py.truthy col = true
  /\ exists v e, getitem fs feature col = Ret v /\ conv v = Raise e.

(** The C library function [f] has a value at [x] that the [math]
    module lets through. *)
Definition in_domain (f : float -> float) (x : float) : Prop :=
  Py.math_1 f x = Ret (f x).

End Stages.

(** ** Observations on a run *)

Section Observations.

Context {host : Host}.

(** The [try] block returns for the feature, or raises. *)
Definition accepted (P : Parameters) (rl : RunLevel) (fs : list QgsField)
    (feature : QgsFeature) : bool :=
  match resolve P rl fs feature with
  | Ret _ => true
  | _ => false
  end.

Definition rejected (P : Parameters) (rl : RunLevel) (fs : list QgsField)
    (feature : QgsFeature) : bool :=
  negb (accepted P rl fs feature).

(** The sink type a written geometry fits. *)
Definition shape_type (g : QgsGeometry) : option WkbType :=
  match g with
  | fromPolygonXY [_] => Some WkbPolygon
  | fromPolylineXY _ => Some WkbLineString
  | _ => None
  end.

(** The points of a written geometry. *)
Definition shape_points (g : QgsGeometry) : list QgsPointXY :=
  match g with
  | fromPolygonXY [ring] => ring
  | fromPolylineXY line => line
  | _ => []
  end.

(** The state [st] after what a loop started from [initial] has done
    to reach [d]. *)
Definition after (st d : LoopState) : LoopState :=
  mkState (sink st ++ sink d) (numbad st + numbad d) (checks st + checks d).

(** The override field [col] is configured and is no field of the
    layer. *)
Definition missing_field (fs : list QgsField) (col : string) : Prop :=
  Py.truthy col = true /\ lookupField col fs 0 = None.

End Observations.

(** The host [h] with another point transform. *)
Definition with_transform (t : crs -> crs -> QgsPointXY -> option QgsPointXY)
    (h : Host) : Host :=
  mkHost (@str_to_int h) (@str_to_float h) (@libm_cos h) (@libm_sin h) (@libm_atan2 h)
         (@conversionToMeters h) (@getGeomNames h) (@geod_Direct h) t
         (@makeIdlCrossingsPositive h).

(** The parameters [P] with another shape type. *)
Definition with_shapetype (n : Z) (P : Parameters) : Parameters :=
  mkParameters n (lobescol P) (startanglecol P) (radiuscol P) (radius P)
    (startAngle P) (lobes P) (segments P) (units P) (export_geom P).

(** ** Progress reporting *)

Section Progress.

Context {host : Host}.

Open Scope float_scope.

(** A Python number that is an [int] or a [float]. *)
Inductive number : Type :=
| IntNum (n : Z)
| FloatNum (x : float).

(** Line 181: [total = 100.0 / featureCount if featureCount else 0]. *)
Definition total_of (featureCount : Z) : comp number :=
  if (featureCount =? 0)%Z then Ret (IntNum 0)
  else x <- Py.float_of_int featureCount ;;
       t <- Py.truediv 100 x ;;
       Ret (FloatNum t).

(** Line 246: [int(index * total)]. *)
Definition progress_of (index : nat) (total : number) : comp Z :=
  match total with
  | IntNum t => Ret (Z.of_nat index * t)%Z
  | FloatNum t => x <- Py.float_of_int (Z.of_nat index) ;; Py.int_of_float (x * t)
  end.

(** Line 245: [index % 100 == 0]. *)
Definition every_hundredth (index : nat) : bool := (index mod 100 =? 0)%nat.

Arguments every_hundredth : simpl never.

(** Lines 186-246: the loop over the features with its index and the
    values passed to [feedback.setProgress], in the order of the
    calls. *)
Fixpoint feature_loop_reporting (fuel : nat) (P : Parameters) (rl : RunLevel)
    (source : FeatureSource) (feedback : Feedback) (total : number) (index : nat)
    (iterator : list QgsFeature) (st : LoopState) (progress : list Z)
    : status * LoopState * list Z :=
  match iterator with
  | [] => (Completed, st, progress)
  | feature :: rest =>
      if isCanceled feedback (checks st) then (Cancelled, bump_check st, progress)
      else
        let st := bump_check st in
        match resolve P rl (fields source) feature with
        | Raise _ =>
            feature_loop_reporting fuel P rl source feedback total (S index) rest
              (reject st) progress
        | OutOfFuel => (Timeout, st, progress)
        | Ret pf =>
            match build_feature fuel P rl (sourceCrs source) feature pf with
            | Ret f =>
                let st := addFeature f st in
                if every_hundredth index then
                  match progress_of index total with
                  | Ret v =>
                      feature_loop_reporting fuel P rl source feedback total (S index)
                        rest st (progress ++ [v])
                  | Raise e => (Failed e, st, progress)
                  | OutOfFuel => (Timeout, st, progress)
                  end
                else
                  feature_loop_reporting fuel P rl source feedback total (S index)
                    rest st progress
            | Raise e => (Failed e, st, progress)
            | OutOfFuel => (Timeout, st, progress)
            end
        end
  end.

(** The indices at which a loop that reaches the end of the layer
    reports: those of the features whose parameters resolve that are
    multiples of 100. *)
Fixpoint reporting_indices (P : Parameters) (rl : RunLevel) (fs : list QgsField)
    (index : nat) (iterator : list QgsFeature) : list nat :=
  match iterator with
  | [] => []
  | feature :: rest =>
      (if accepted P rl fs feature && every_hundredth index then [index] else [])
      ++ reporting_indices P rl fs (S index) rest
  end.

End Progress.

(** The progress total of a source that announces three features, and
    the loop with reporting on the mixed layer of [Demo]. *)
Definition demo_total : number := FloatNum (100 / 3)%float.

Definition demo_reporting : status * LoopState * list Z :=
  feature_loop_reporting (host := Demo.host) 6 Demo.mixed_parameters
    (Demo.run_of Demo.mixed_parameters) Demo.mixed_layer Demo.never demo_total 0
    (getFeatures Demo.mixed_layer) initial [].

(** The values a run reads when every parameter is left at what
    [initAlgorithm] declares (lines 45-141): polygon, no override
    field, 5 lobes, starting angle 0, radius 40, the first unit of
    measure, 720 segments, no export of the input coordinates. *)
Definition declared_defaults : Parameters :=
  mkParameters 0 "" "" "" 40 0 5 720 0 false.

(** * Properties *)

(** ** The result monad *)

Lemma bind_Ret_inv (A B : Type) (c : comp A) (k : A -> comp B) (b : B) :
  bind c k = Ret b -> exists a, c = Ret a /\ k a = Ret b.
Proof.
  destruct c as [a | e | ]; simpl; intros H; try discriminate.
  exists a. split; [reflexivity | exact H].
Qed.

Lemma lift_option_Ret_inv (A : Type) (e : exn) (o : option A) (a : A) :
  lift_option e o = Ret a -> o = Some a.
Proof.
  destruct o; simpl; intros H; inversion H; reflexivity.
Qed.

Lemma math_1_Ret_inv (f : float -> float) (x v : float) :
  Py.math_1 f x = Ret v -> v = f x.
Proof.
  unfold Py.math_1.
  destruct (is_nan (f x) && negb (is_nan x)); [discriminate | ].
  destruct (is_infinity (f x) && is_finite x); [discriminate | ].
  intros H. inversion H. reflexivity.
Qed.

(** Decomposes a hypothesis [bind c k = Ret b]. *)
Ltac bind_inv H :=
  let a := fresh "a" in
  let Ha := fresh "Ha" in
  apply bind_Ret_inv in H; destruct H as [a [Ha H]].

Lemma mapM_length (A B : Type) (f : A -> comp B) (l : list A) (bs : list B) :
  mapM f l = Ret bs -> List.length bs = List.length l.
Proof.
  revert bs. induction l as [| a l IH]; simpl; intros bs H.
  - inversion H. reflexivity.
  - bind_inv H. bind_inv H. inversion H. simpl. f_equal. apply IH. assumption.
Qed.

(** ** The sampler *)

Section SamplerFacts.

Context {host : Host}.

Open Scope float_scope.

Lemma sample_pair_inv (rr : float) (l : Z) (sa angle a2 dist : float) :
  sample_pair rr l sa angle = Ret (a2, dist) ->
  exists lobesf,
    Py.float_of_int l = Ret lobesf
    /\ a2 = spec_bearing rr lobesf sa (Py.radians angle)
    /\ dist = spec_distance rr lobesf (Py.radians angle).
Proof.
  unfold sample_pair, Py.int_add_float, math_cos, math_sin, Py.math_sqrt.
  intros H.
  bind_inv H. bind_inv Ha. inversion Ha; subst a; clear Ha.
  bind_inv H. bind_inv H. bind_inv H. bind_inv H. bind_inv H.
  apply math_1_Ret_inv in Ha, Ha1, Ha2, Ha3, Ha4.
  inversion H; subst. clear H.
  exists a0. split; [assumption | ].
  split; reflexivity.
Qed.

(** Where the C library has values, the pair is the spec's. *)
Lemma sample_pair_returns (rr : float) (l : Z) (sa angle lobesf : float) :
  Py.float_of_int l = Ret lobesf ->
  in_domain libm_cos (Py.radians angle) ->
  in_domain libm_cos ((lobesf + 1) * Py.radians angle) ->
  in_domain libm_sin (Py.radians angle) ->
  in_domain libm_sin ((lobesf + 1) * Py.radians angle) ->
  in_domain sqrt (spec_x rr lobesf (Py.radians angle) * spec_x rr lobesf (Py.radians angle)
                  + spec_y rr lobesf (Py.radians angle) * spec_y rr lobesf (Py.radians angle)) ->
  sample_pair rr l sa angle
  = Ret (spec_bearing rr lobesf sa (Py.radians angle),
         spec_distance rr lobesf (Py.radians angle)).
Proof.
  unfold in_domain. intros Hl Hc1 Hc2 Hs1 Hs2 Hq.
  unfold sample_pair, Py.int_add_float, math_cos, math_sin, Py.math_sqrt.
  rewrite Hl. simpl. rewrite Hc1. simpl. rewrite Hc2. simpl.
  rewrite Hs1. simpl. rewrite Hs2. simpl.
  unfold spec_x, spec_y in Hq. rewrite Hq. reflexivity.
Qed.

Lemma sample_point_inv (rr : float) (l : Z) (sa : float) (pt : QgsPointXY)
    (angle : float) (p : QgsPointXY) :
  sample_point rr l sa pt angle = Ret p ->
  exists lobesf, Py.float_of_int l = Ret lobesf /\ solved_from pt rr lobesf sa angle p.
Proof.
  unfold sample_point. intros H.
  bind_inv H. destruct a as [a2 dist].
  bind_inv H. destruct a as [lat2 lon2].
  inversion H; subst p; clear H.
  apply sample_pair_inv in Ha. destruct Ha as [lobesf [Hl [Hb Hd]]].
  apply lift_option_Ret_inv in Ha0.
  exists lobesf. split; [assumption | ].
  exists lat2, lon2. subst a2 dist. split; [assumption | reflexivity].
Qed.

(** The loop appends one point per value of [angle], in order. *)
Lemma sample_loop_inv (fuel : nat) (rr : float) (l : Z) (sa : float)
    (pt : QgsPointXY) (st : float) :
  forall (angle : float) (pts out : list QgsPointXY),
    sample_loop fuel rr l sa pt st angle pts = Ret out ->
    exists angles ps,
      sample_angles fuel st angle = Ret angles
      /\ Forall2 (fun a p => sample_point rr l sa pt a = Ret p) angles ps
      /\ out = pts ++ ps.
Proof.
  induction fuel as [| fuel IH]; simpl; intros angle pts out H; [discriminate | ].
  destruct (angle <=? 360).
  - bind_inv H.
    apply IH in H. destruct H as [angles [ps [Hang [Hall Hout]]]].
    exists (angle :: angles), (a :: ps).
    rewrite Hang. simpl. split; [reflexivity | ].
    split; [constructor; assumption | ].
    rewrite Hout, <- app_assoc. reflexivity.
  - inversion H; subst out.
    exists [], []. split; [reflexivity | ].
    split; [constructor | rewrite app_nil_r; reflexivity].
Qed.

(** With the angles known, the loop is a traversal of them. *)
Lemma sample_loop_angles (fuel : nat) (rr : float) (l : Z) (sa : float)
    (pt : QgsPointXY) (st : float) :
  forall (angle : float) (pts : list QgsPointXY) (angles : list float),
    sample_angles fuel st angle = Ret angles ->
    sample_loop fuel rr l sa pt st angle pts
    = (ps <- mapM (sample_point rr l sa pt) angles ;; Ret (pts ++ ps)).
Proof.
  induction fuel as [| fuel IH]; simpl; intros angle pts angles H; [discriminate | ].
  destruct (angle <=? 360).
  - bind_inv H. inversion H; subst angles; clear H. simpl.
    destruct (sample_point rr l sa pt angle) as [p | e | ]; simpl; try reflexivity.
    erewrite IH by eassumption.
    destruct (mapM (sample_point rr l sa pt) a) as [ps | e | ]; simpl; try reflexivity.
    rewrite <- app_assoc. reflexivity.
  - inversion H; subst angles. simpl. rewrite app_nil_r. reflexivity.
Qed.

Lemma sample_loop_length (fuel : nat) (rr : float) (l : Z) (sa : float)
    (pt : QgsPointXY) (st : float) (angles : list float) (out : list QgsPointXY) :
  sample_angles fuel st 0 = Ret angles ->
  sample_loop fuel rr l sa pt st 0 [] = Ret out ->
  List.length out = List.length angles.
Proof.
  intros Hang H. erewrite sample_loop_angles in H by eassumption.
  bind_inv H. inversion H; subst out. simpl.
  eapply mapM_length. eassumption.
Qed.

(** More fuel does not change the angles a loop has visited. *)
Lemma sample_angles_fuel (fuel : nat) (st : float) :
  forall (angle : float) (angles : list float) (extra : nat),
    sample_angles fuel st angle = Ret angles ->
    sample_angles (fuel + extra) st angle = Ret angles.
Proof.
  induction fuel as [| fuel IH]; simpl; intros angle angles extra H; [discriminate | ].
  destruct (angle <=? 360); [ | assumption].
  bind_inv H. erewrite IH by eassumption. assumption.
Qed.

(** The body of [build_feature], stage by stage. *)
Lemma build_feature_stages (fuel : nat) (P : Parameters) (rl : RunLevel)
    (srcCRS : crs) (feature : QgsFeature) (pf : PerFeature) :
  build_feature fuel P rl srcCRS feature pf
  = (pt0 <- asPoint (geometry feature) ;;
     pt <- anchor srcCRS feature ;;
     raw <- sample_loop fuel (r pf) (lobes2 pf) (sangle pf) pt (step rl) 0 [] ;;
     pts <- to_sink srcCRS (makeIdlCrossingsPositive raw) ;;
     Ret (mkFeature (output_attributes P feature pt0) (shape P pts))).
Proof.
  unfold build_feature, anchor, to_sink, shape, output_attributes.
  destruct (asPoint (geometry feature)) as [pt0 | e | ]; reflexivity.
Qed.

Lemma build_feature_inv (fuel : nat) (P : Parameters) (rl : RunLevel)
    (srcCRS : crs) (feature : QgsFeature) (pf : PerFeature) (f : QgsFeature) :
  build_feature fuel P rl srcCRS feature pf = Ret f ->
  exists pt0 pt raw pts,
    asPoint (geometry feature) = Ret pt0
    /\ anchor srcCRS feature = Ret pt
    /\ sample_loop fuel (r pf) (lobes2 pf) (sangle pf) pt (step rl) 0 [] = Ret raw
    /\ to_sink srcCRS (makeIdlCrossingsPositive raw) = Ret pts
    /\ f = mkFeature (output_attributes P feature pt0) (shape P pts).
Proof.
  rewrite build_feature_stages. intros H.
  bind_inv H. bind_inv H. bind_inv H. bind_inv H.
  inversion H; subst f.
  exists a, a0, a1, a2. repeat split; assumption.
Qed.

(** C1. For every processed feature, each sampled angle yields the
    local offsets x = r*(lobes+1)*cos(theta) - r*cos((lobes+1)*theta)
    and y = r*(lobes+1)*sin(theta) - r*sin((lobes+1)*theta), and the
    solver is called from the anchor with bearing atan2(y, x) in
    degrees plus the starting angle and distance sqrt(x*x + y*y): the
    feature's shape is made of the solver's answers to exactly these
    pairs, one per sampled angle and in the order of the angles, once
    normalized and brought back to the layer's reference system. *)
Theorem samples_follow_epicycloid (fuel : nat) (P : Parameters) (rl : RunLevel)
    (srcCRS : crs) (feature : QgsFeature) (pf : PerFeature) (f : QgsFeature) :
  build_feature fuel P rl srcCRS feature pf = Ret f ->
  exists pt angles lobesf raw pts,
    anchor srcCRS feature = Ret pt
    /\ sample_angles fuel (step rl) 0 = Ret angles
    /\ Py.float_of_int (lobes2 pf) = Ret lobesf
    /\ Forall2 (solved_from pt (r pf) lobesf (sangle pf)) angles raw
    /\ to_sink srcCRS (makeIdlCrossingsPositive raw) = Ret pts
    /\ geometry f = shape P pts.
Proof.
  intros H. apply build_feature_inv in H.
  destruct H as [pt0 [pt [raw [pts [_ [Hanchor [Hloop [Hsink Hf]]]]]]]].
  apply sample_loop_inv in Hloop as Hinv.
  destruct Hinv as [angles [ps [Hang [Hall Hraw]]]].
  simpl in Hraw. subst raw.
  assert (Hfirst : exists a0 rest, angles = a0 :: rest).
  { destruct fuel as [| fuel']; simpl in Hang; [discriminate | ].
    change (0 <=? 360) with true in Hang. cbv iota in Hang.
    apply bind_Ret_inv in Hang. destruct Hang as [rest [_ Hang]].
    inversion Hang. eauto. }
  destruct Hfirst as [a0 [rest Hangles]].
  assert (Hl : exists lobesf, Py.float_of_int (lobes2 pf) = Ret lobesf).
  { subst angles. inversion Hall as [| ? p ? ? Hp _]; subst.
    apply sample_point_inv in Hp. destruct Hp as [lobesf [Hl _]]. eauto. }
  destruct Hl as [lobesf Hl].
  exists pt, angles, lobesf, ps, pts.
  split; [assumption | ].
  split; [assumption | ].
  split; [assumption | ].
  split; [ | split; [assumption | subst f; reflexivity]].
  clear Hangles Hang Hloop Hsink.
  induction Hall as [| a p angles' ps' Hp _ IH]; constructor; [ | exact IH].
  apply sample_point_inv in Hp. destruct Hp as [lobesf' [Hl' Hs]].
  rewrite Hl in Hl'. inversion Hl'; subst lobesf'. exact Hs.
Qed.

End SamplerFacts.

(** ** The parameter resolver *)

Section ResolverFacts.

Context {host : Host}.

Open Scope float_scope.

(** Nothing in the [try] block loops. *)
Lemma bind_returns_or_raises (A B : Type) (c : comp A) (k : A -> comp B) :
  returns_or_raises c -> (forall a, returns_or_raises (k a)) ->
  returns_or_raises (bind c k).
Proof.
  intros [[a Ha] | [e He]] Hk; subst c; simpl.
  - apply Hk.
  - right. eauto.
Qed.

Lemma lift_option_returns_or_raises (A : Type) (e : exn) (o : option A) :
  returns_or_raises (lift_option e o).
Proof.
  destruct o; simpl; [left | right]; eauto.
Qed.

Lemma float_of_int_returns_or_raises (n : Z) : returns_or_raises (Py.float_of_int n).
Proof.
  unfold Py.float_of_int.
  destruct (is_infinity _); [right | left]; eauto.
Qed.

Lemma int_of_float_returns_or_raises (x : float) : returns_or_raises (Py.int_of_float x).
Proof.
  unfold Py.int_of_float.
  destruct (Prim2SF x); [left | right | right | left]; eauto.
Qed.

Lemma truediv_returns_or_raises (x y : float) : returns_or_raises (Py.truediv x y).
Proof.
  unfold Py.truediv. destruct (y =? 0); [right | left]; eauto.
Qed.

Lemma getitem_returns_or_raises (fs : list QgsField) (feature : QgsFeature) (col : string) :
  returns_or_raises (getitem fs feature col).
Proof.
  unfold getitem. apply bind_returns_or_raises.
  - apply lift_option_returns_or_raises.
  - intros i. apply lift_option_returns_or_raises.
Qed.

Lemma py_float_returns_or_raises (v : QVariant) : returns_or_raises (py_float v).
Proof.
  destruct v; simpl.
  - right. eauto.
  - apply float_of_int_returns_or_raises.
  - left. eauto.
  - apply lift_option_returns_or_raises.
Qed.

Lemma py_int_returns_or_raises (v : QVariant) : returns_or_raises (py_int v).
Proof.
  destruct v; simpl.
  - right. eauto.
  - left. eauto.
  - apply int_of_float_returns_or_raises.
  - apply lift_option_returns_or_raises.
Qed.

Lemma sangle_of_returns_or_raises (P : Parameters) (fs : list QgsField) (feature : QgsFeature) :
  returns_or_raises (sangle_of P fs feature).
Proof.
  unfold sangle_of. destruct (Py.truthy _); [ | left; eauto].
  apply bind_returns_or_raises;
    [apply getitem_returns_or_raises | intros; apply py_float_returns_or_raises].
Qed.

Lemma lobes_of_returns_or_raises (P : Parameters) (fs : list QgsField) (feature : QgsFeature) :
  returns_or_raises (lobes_of P fs feature).
Proof.
  unfold lobes_of. destruct (Py.truthy _); [ | left; eauto].
  apply bind_returns_or_raises;
    [apply getitem_returns_or_raises | intros; apply py_int_returns_or_raises].
Qed.

Lemma radius_of_returns_or_raises (P : Parameters) (rl : RunLevel) (fs : list QgsField)
    (feature : QgsFeature) :
  returns_or_raises (radius_of P rl fs feature).
Proof.
  unfold radius_of. destruct (Py.truthy _); [ | left; eauto].
  apply bind_returns_or_raises; [apply getitem_returns_or_raises | intros v].
  apply bind_returns_or_raises; [apply py_float_returns_or_raises | intros x].
  left. eauto.
Qed.

Lemma scale_of_returns_or_raises (P : Parameters) (rl : RunLevel) (l : Z) (rad : float) :
  returns_or_raises (scale_of P rl l rad).
Proof.
  unfold scale_of. destruct (_ || _); [ | left; eauto].
  unfold Py.int_add_float.
  apply bind_returns_or_raises.
  - apply bind_returns_or_raises; [apply float_of_int_returns_or_raises | ].
    intros x. left. eauto.
  - intros d. apply truediv_returns_or_raises.
Qed.

(** The [try] block, step by step. *)
Lemma resolve_stages (P : Parameters) (rl : RunLevel) (fs : list QgsField)
    (feature : QgsFeature) :
  resolve P rl fs feature
  = (sa <- sangle_of P fs feature ;;
     l <- lobes_of P fs feature ;;
     rad <- radius_of P rl fs feature ;;
     rr <- scale_of P rl l rad ;;
     Ret (mkPerFeature sa l rad rr)).
Proof. reflexivity. Qed.

Lemma resolve_returns_or_raises (P : Parameters) (rl : RunLevel) (fs : list QgsField)
    (feature : QgsFeature) :
  returns_or_raises (resolve P rl fs feature).
Proof.
  rewrite resolve_stages.
  apply bind_returns_or_raises; [apply sangle_of_returns_or_raises | intros sa].
  apply bind_returns_or_raises; [apply lobes_of_returns_or_raises | intros l].
  apply bind_returns_or_raises; [apply radius_of_returns_or_raises | intros rad].
  apply bind_returns_or_raises; [apply scale_of_returns_or_raises | intros rr].
  left. eauto.
Qed.

(** A step that raises makes the whole block raise. *)
Lemma resolve_raises_sangle (P : Parameters) (rl : RunLevel) (fs : list QgsField)
    (feature : QgsFeature) (e : exn) :
  sangle_of P fs feature = Raise e -> resolve P rl fs feature = Raise e.
Proof.
  intros H. rewrite resolve_stages, H. reflexivity.
Qed.

Lemma resolve_raises_lobes (P : Parameters) (rl : RunLevel) (fs : list QgsField)
    (feature : QgsFeature) (e : exn) :
  lobes_of P fs feature = Raise e -> exists e', resolve P rl fs feature = Raise e'.
Proof.
  intros H. rewrite resolve_stages, H.
  destruct (sangle_of_returns_or_raises P fs feature) as [[sa Hs] | [e' Hs]];
    rewrite Hs; simpl; eauto.
Qed.

Lemma resolve_raises_radius (P : Parameters) (rl : RunLevel) (fs : list QgsField)
    (feature : QgsFeature) (e : exn) :
  radius_of P rl fs feature = Raise e -> exists e', resolve P rl fs feature = Raise e'.
Proof.
  intros H. rewrite resolve_stages, H.
  destruct (sangle_of_returns_or_raises P fs feature) as [[sa Hs] | [e' Hs]];
    rewrite Hs; simpl; eauto.
  destruct (lobes_of_returns_or_raises P fs feature) as [[l Hl] | [e' Hl]];
    rewrite Hl; simpl; eauto.
Qed.

Lemma resolve_raises_scale (P : Parameters) (rl : RunLevel) (fs : list QgsField)
    (feature : QgsFeature) (l : Z) :
  lobes_of P fs feature = Ret l ->
  (forall rad, exists e, scale_of P rl l rad = Raise e) ->
  exists e', resolve P rl fs feature = Raise e'.
Proof.
  intros Hl Hscale. rewrite resolve_stages, Hl.
  destruct (sangle_of_returns_or_raises P fs feature) as [[sa Hs] | [e' Hs]];
    rewrite Hs; simpl; eauto.
  destruct (radius_of_returns_or_raises P rl fs feature) as [[rad Hr] | [e' Hr]];
    rewrite Hr; simpl; eauto.
  destruct (Hscale rad) as [e He]. rewrite He. simpl. eauto.
Qed.

End ResolverFacts.

(** ** One turn of the feature loop *)

Section LoopFacts.

Context {host : Host}.

Variables (fuel : nat) (P : Parameters) (rl : RunLevel) (source : FeatureSource)
          (feedback : Feedback).

Abbreviation loop := (feature_loop fuel P rl source feedback).

Lemma loop_cancelled (feature : QgsFeature) (rest : list QgsFeature) (st : LoopState) :
  isCanceled feedback (checks st) = true ->
  loop (feature :: rest) st = (Cancelled, bump_check st).
Proof.
  intros H. simpl. rewrite H. reflexivity.
Qed.

Lemma loop_rejects (feature : QgsFeature) (rest : list QgsFeature) (st : LoopState)
    (e : exn) :
  isCanceled feedback (checks st) = false ->
  resolve P rl (fields source) feature = Raise e ->
  loop (feature :: rest) st = loop rest (reject (bump_check st)).
Proof.
  intros Hc Hr. simpl. rewrite Hc, Hr. reflexivity.
Qed.

Lemma loop_accepts (feature : QgsFeature) (rest : list QgsFeature) (st : LoopState)
    (pf : PerFeature) (f : QgsFeature) :
  isCanceled feedback (checks st) = false ->
  resolve P rl (fields source) feature = Ret pf ->
  build_feature fuel P rl (sourceCrs source) feature pf = Ret f ->
  loop (feature :: rest) st = loop rest (addFeature f (bump_check st)).
Proof.
  intros Hc Hr Hb. simpl. rewrite Hc, Hr, Hb. reflexivity.
Qed.

Lemma loop_aborts (feature : QgsFeature) (rest : list QgsFeature) (st : LoopState)
    (pf : PerFeature) (e : exn) :
  isCanceled feedback (checks st) = false ->
  resolve P rl (fields source) feature = Ret pf ->
  build_feature fuel P rl (sourceCrs source) feature pf = Raise e ->
  loop (feature :: rest) st = (Failed e, bump_check st).
Proof.
  intros Hc Hr Hb. simpl. rewrite Hc, Hr, Hb. reflexivity.
Qed.

(** One turn on a feature whose [try] block raises. *)
Lemma loop_skips_and_counts (feature : QgsFeature) (rest : list QgsFeature)
    (st : LoopState) (e : exn) :
  isCanceled feedback (checks st) = false ->
  resolve P rl (fields source) feature = Raise e ->
  loop [feature] st = (Completed, mkState (sink st) (S (numbad st)) (S (checks st)))
  /\ loop (feature :: rest) st
     = loop rest (mkState (sink st) (S (numbad st)) (S (checks st))).
Proof.
  intros Hc Hr. split; simpl; rewrite Hc, Hr; reflexivity.
Qed.

(** Without cancellation, a loop started with one more bad feature
    and one more check behind it ends the same way, with the same
    sink, and with one more of each. *)
Lemma loop_with_one_more_bad (fs : list QgsFeature) :
  (forall n, isCanceled feedback n = false) ->
  forall (st st' : LoopState) (s : status),
    loop fs st = (s, st') ->
    loop fs (mkState (sink st) (S (numbad st)) (S (checks st)))
    = (s, mkState (sink st') (S (numbad st')) (S (checks st'))).
Proof.
  intros Hnever.
  induction fs as [| feature rest IH]; intros st st' s H.
  - simpl in H. inversion H; subst. reflexivity.
  - simpl in H. simpl. rewrite Hnever in H. rewrite Hnever.
    destruct (resolve P rl (fields source) feature) as [pf | e | ].
    + destruct (build_feature fuel P rl (sourceCrs source) feature pf) as [f | e | ].
      * apply IH in H. exact H.
      * inversion H; subst. reflexivity.
      * inversion H; subst. reflexivity.
    + apply IH in H. exact H.
    + inversion H; subst. reflexivity.
Qed.

(** A run of the loop over one feature that ends with an exception
    got it from the building of the shape: no exception of the [try]
    block leaves the loop. *)
Lemma loop_failure_is_from_building (feature : QgsFeature) (st st' : LoopState)
    (e : exn) :
  loop [feature] st = (Failed e, st') ->
  exists pf,
    resolve P rl (fields source) feature = Ret pf
    /\ build_feature fuel P rl (sourceCrs source) feature pf = Raise e.
Proof.
  simpl. intros H.
  destruct (isCanceled feedback (checks st)); [discriminate | ].
  destruct (resolve P rl (fields source) feature) as [pf | e' | ]; try discriminate.
  exists pf. split; [reflexivity | ].
  destruct (build_feature fuel P rl (sourceCrs source) feature pf) as [f | e' | ];
    try discriminate.
  inversion H. reflexivity.
Qed.

(** C5. A feature with an override field whose value cannot be parsed
    as the expected numeric type (float for the starting angle and
    the radius, int for the lobes) is excluded from the output and
    raises the rejection counter by exactly one: alone, it leaves the
    sink as it was and the counter one higher; before other features,
    the loop goes on with them from that state; and, where no
    cancellation is signalled, the loop over the feature and the
    others ends as the loop over the others alone does, with the same
    sink, and with a counter exactly one higher. *)
Theorem unparsable_override_is_skipped_and_counted
    (feature : QgsFeature) (rest : list QgsFeature) (st : LoopState) :
  isCanceled feedback (checks st) = false ->
  unparsable py_float (fields source) feature (startanglecol P)
  \/ unparsable py_int (fields source) feature (lobescol P)
  \/ unparsable py_float (fields source) feature (radiuscol P) ->
  loop [feature] st = (Completed, mkState (sink st) (S (numbad st)) (S (checks st)))
  /\ loop (feature :: rest) st
     = loop rest (mkState (sink st) (S (numbad st)) (S (checks st)))
  /\ ((forall n, isCanceled feedback n = false) ->
      forall (s : status) (st' : LoopState),
        loop rest st = (s, st') ->
        loop (feature :: rest) st
        = (s, mkState (sink st') (S (numbad st')) (S (checks st')))).
Proof.
  intros Hc Hbad.
  assert (Hr : exists e, resolve P rl (fields source) feature = Raise e).
  { destruct Hbad as [[Ht [v [e [Hv He]]]] | [[Ht [v [e [Hv He]]]] | [Ht [v [e [Hv He]]]]]].
    - exists e. apply resolve_raises_sangle.
      unfold sangle_of. rewrite Ht, Hv. simpl. exact He.
    - apply resolve_raises_lobes with (e := e).
      unfold lobes_of. rewrite Ht, Hv. simpl. exact He.
    - apply resolve_raises_radius with (e := e).
      unfold radius_of. rewrite Ht, Hv. simpl. rewrite He. reflexivity. }
  destruct Hr as [e Hr].
  destruct (loop_skips_and_counts feature rest st Hc Hr) as [Hone Hnext].
  split; [exact Hone | ].
  split; [exact Hnext | ].
  intros Hnever s st' Hrest.
  rewrite Hnext. apply loop_with_one_more_bad; assumption.
Qed.

(** C10. A lobes override that parses to -2 makes the scale radius
    radius2 / (lobes2 + 2.0) a division by zero, whatever the radius;
    the division stands inside the [try] block, so the run does not
    end with it: the feature alone leaves the sink as it was and the
    counter of bad features exactly one higher, the loop goes on with
    the features after it from that state and, where no cancellation
    is signalled, ends as it does on them alone, with the same sink
    and a counter one higher.  Whatever the override values of a
    feature, an exception that ends the loop comes from the building
    of the shape, never from the resolution of the parameters. *)
Theorem lobes_minus_two_is_skipped_and_counted
    (feature : QgsFeature) (rest : list QgsFeature) (st : LoopState) (v : QVariant) :
  isCanceled feedback (checks st) = false ->
  Py.truthy (lobescol P) = true ->
  getitem (fields source) feature (lobescol P) = Ret v ->
  py_int v = Ret (-2)%Z ->
  (forall radius2, scale_of P rl (-2) radius2 = Raise ZeroDivisionError)
  /\ (exists e, resolve P rl (fields source) feature = Raise e)
  /\ loop [feature] st = (Completed, mkState (sink st) (S (numbad st)) (S (checks st)))
  /\ loop (feature :: rest) st
     = loop rest (mkState (sink st) (S (numbad st)) (S (checks st)))
  /\ ((forall n, isCanceled feedback n = false) ->
      forall (s : status) (st' : LoopState),
        loop rest st = (s, st') ->
        loop (feature :: rest) st
        = (s, mkState (sink st') (S (numbad st')) (S (checks st'))))
  /\ (forall (other : QgsFeature) (e : exn) (st0 st' : LoopState),
        loop [other] st0 = (Failed e, st') ->
        exists pf,
          resolve P rl (fields source) other = Ret pf
          /\ build_feature fuel P rl (sourceCrs source) other pf = Raise e).
Proof.
  intros Hc Ht Hv Hi.
  assert (Hscale : forall radius2, scale_of P rl (-2) radius2 = Raise ZeroDivisionError).
  { intros radius2. unfold scale_of. rewrite Ht. reflexivity. }
  assert (Hr : exists e, resolve P rl (fields source) feature = Raise e).
  { apply resolve_raises_scale with (l := (-2)%Z).
    - unfold lobes_of. rewrite Ht, Hv. simpl. exact Hi.
    - intros rad. exists ZeroDivisionError. apply Hscale. }
  split; [exact Hscale | ].
  split; [exact Hr | ].
  destruct Hr as [e Hr].
  destruct (loop_skips_and_counts feature rest st Hc Hr) as [Hone Hnext].
  split; [exact Hone | ].
  split; [exact Hnext | ].
  split.
  - intros Hnever s st' Hrest.
    rewrite Hnext. apply loop_with_one_more_bad; assumption.
  - intros other e0 st0 st' H. eapply loop_failure_is_from_building. exact H.
Qed.

End LoopFacts.

Section ScaleRadius.

Context {host : Host}.

Open Scope float_scope.

(** C6. For a feature whose effective radius and lobes equal the run
    defaults, the scale radius the resolver yields equals the value
    radius / (lobes + 2.0) computed once before the loop, whether it
    was recomputed for the feature or taken over. *)
Theorem scale_radius_paths_agree (P : Parameters) (rl : RunLevel)
    (fs : list QgsField) (feature : QgsFeature) (pf : PerFeature) :
  run_level P = Ret rl ->
  resolve P rl fs feature = Ret pf ->
  radius2 pf = radius_m rl ->
  lobes2 pf = lobes P ->
  r pf = r2 rl
  /\ exists d, Py.int_add_float (lobes P) 2 = Ret d /\ r2 rl = radius_m rl / d.
Proof.
  intros Hrun Hres Hrad Hlobes.
  unfold run_level in Hrun.
  bind_inv Hrun. bind_inv Hrun. bind_inv Hrun. bind_inv Hrun.
  inversion Hrun; subst rl; clear Hrun. simpl in *.
  assert (Hdiv : a0 = radius P * conversionToMeters (units P) / a).
  { unfold Py.truediv in Ha0. destruct (a =? 0); [discriminate | ].
    inversion Ha0. reflexivity. }
  split; [ | exists a; split; assumption].
  rewrite resolve_stages in Hres.
  bind_inv Hres. bind_inv Hres. bind_inv Hres. bind_inv Hres.
  inversion Hres; subst pf; clear Hres. simpl in *. subst a5 a4.
  unfold scale_of in Ha6. simpl in Ha6.
  destruct (Py.truthy (lobescol P) || Py.truthy (radiuscol P)).
  - rewrite Ha in Ha6. simpl in Ha6. rewrite Ha0 in Ha6.
    inversion Ha6. reflexivity.
  - inversion Ha6. reflexivity.
Qed.

End ScaleRadius.

(** ** The feature loop *)

Section RunFacts.

Context {host : Host}.

Variables (fuel : nat) (P : Parameters) (rl : RunLevel) (source : FeatureSource)
          (feedback : Feedback).

Abbreviation loop := (feature_loop fuel P rl source feedback).




(** C8. With the export flag set, an accepted feature carries the
    copied input attributes followed by exactly two doubles, the x
    and y of the anchor as stored in the layer; they are read before
    any reprojection, so whatever transform, reference system or
    solver the run works with, the two values are the same.  The
    sink's schema is the input schema followed by two double fields. *)
Theorem original_coordinates_are_appended
    (srcCRS : crs) (feature : QgsFeature) (pf : PerFeature) (f : QgsFeature)
    (pt0 : QgsPointXY) :
  export_geom P = true ->
  geometry feature = PointGeometry pt0 ->
  build_feature fuel P rl srcCRS feature pf = Ret f ->
  attributes f = attributes feature ++ [QDouble (px pt0); QDouble (py pt0)]
  /\ (forall (other : Host) (fuel' : nat) (rl' : RunLevel) (srcCRS' : crs)
        (pf' : PerFeature) (f' : QgsFeature),
        build_feature (host := other) fuel' P rl' srcCRS' feature pf' = Ret f' ->
        attributes f' = attributes f)
  /\ output_fields P source
     = fields source
       ++ [mkField (fst (getGeomNames (map field_name (fields source)))) TDouble;
           mkField (snd (getGeomNames (map field_name (fields source)))) TDouble].
Proof.
  intros Hexport Hgeom Hbuild.
  assert (Hattr : forall (h : Host) fuel0 rl0 crs0 pf0 f0,
             build_feature (host := h) fuel0 P rl0 crs0 feature pf0 = Ret f0 ->
             attributes f0 = attributes feature ++ [QDouble (px pt0); QDouble (py pt0)]).
  { intros h fuel0 rl0 crs0 pf0 f0 H.
    apply build_feature_inv in H.
    destruct H as [q0 [pt [raw [pts [Hq0 [_ [_ [_ Hf]]]]]]]].
    rewrite Hgeom in Hq0. simpl in Hq0. inversion Hq0; subst q0.
    subst f0. simpl. unfold output_attributes. rewrite Hexport.
    rewrite <- app_assoc. reflexivity. }
  split; [exact (Hattr _ _ _ _ _ _ Hbuild) | ].
  split.
  - intros other fuel' rl' srcCRS' pf' f' H.
    rewrite (Hattr _ _ _ _ _ _ H), (Hattr _ _ _ _ _ _ Hbuild). reflexivity.
  - unfold output_fields. rewrite Hexport.
    destruct (getGeomNames (map field_name (fields source))) as [name_x name_y].
    reflexivity.
Qed.

Lemma Forall2_length_eq (A B : Type) (R : A -> B -> Prop) (l : list A) (l' : list B) :
  Forall2 R l l' -> List.length l = List.length l'.
Proof.
  induction 1; simpl; congruence.
Qed.

Lemma built_feature_is_complete (feature : QgsFeature) (pf : PerFeature) (f : QgsFeature) :
  build_feature fuel P rl (sourceCrs source) feature pf = Ret f ->
  complete_geometry fuel P rl (sourceCrs source) f.
Proof.
  intros H. apply build_feature_inv in H.
  destruct H as [pt0 [pt [raw [pts [_ [_ [Hloop [Hsink Hf]]]]]]]].
  apply sample_loop_inv in Hloop. destruct Hloop as [angles [ps [Hang [Hall Hraw]]]].
  simpl in Hraw. subst raw.
  exists angles, ps, pts.
  split; [assumption | ].
  split; [symmetry; eapply Forall2_length_eq; eassumption | ].
  split; [assumption | ].
  subst f. reflexivity.
Qed.

(** What a run of the loop adds to its state: complete features only,
    and, when it reaches the end of the iterator, one check and one
    feature written or counted bad for every feature. *)
Lemma loop_invariant (fs : list QgsFeature) :
  forall (st st' : LoopState) (s : status),
    loop fs st = (s, st') ->
    exists new,
      sink st' = sink st ++ new
      /\ Forall (complete_geometry fuel P rl (sourceCrs source)) new
      /\ (s = Completed ->
          (List.length new + numbad st' = numbad st + List.length fs)%nat
          /\ checks st' = (checks st + List.length fs)%nat).
Proof.
  induction fs as [| feature rest IH]; intros st st' s H.
  - simpl in H. inversion H; subst. exists []. rewrite app_nil_r.
    split; [reflexivity | ]. split; [constructor | ].
    intros _. simpl. split; lia.
  - simpl in H.
    destruct (isCanceled feedback (checks st)).
    { inversion H; subst. exists []. simpl. rewrite app_nil_r.
      split; [reflexivity | ]. split; [constructor | discriminate]. }
    destruct (resolve P rl (fields source) feature) as [pf | e | ].
    + destruct (build_feature fuel P rl (sourceCrs source) feature pf) as [f | e | ] eqn:Hb.
      * apply IH in H. destruct H as [new [Hsink [Hall Hdone]]].
        exists (f :: new). simpl in Hsink. rewrite <- app_assoc in Hsink.
        split; [exact Hsink | ].
        split; [constructor; [apply built_feature_is_complete with (1 := Hb) | exact Hall] | ].
        intros Hs. destruct (Hdone Hs) as [Hn Hk]. simpl in *. split; lia.
      * inversion H; subst. exists []. simpl. rewrite app_nil_r.
        split; [reflexivity | ]. split; [constructor | discriminate].
      * inversion H; subst. exists []. simpl. rewrite app_nil_r.
        split; [reflexivity | ]. split; [constructor | discriminate].
    + apply IH in H. destruct H as [new [Hsink [Hall Hdone]]].
      exists new. simpl in Hsink.
      split; [exact Hsink | ]. split; [exact Hall | ].
      intros Hs. destruct (Hdone Hs) as [Hn Hk]. simpl in *. split; lia.
    + inversion H; subst. exists []. simpl. rewrite app_nil_r.
      split; [reflexivity | ]. split; [constructor | discriminate].
Qed.

(** A loop that completes on a prefix goes on with the rest. *)
Lemma loop_app (fs1 fs2 : list QgsFeature) :
  forall (st st1 : LoopState),
    loop fs1 st = (Completed, st1) ->
    loop (fs1 ++ fs2) st = loop fs2 st1.
Proof.
  induction fs1 as [| feature rest IH]; intros st st1 H.
  - simpl in H. inversion H. reflexivity.
  - simpl in H. simpl.
    destruct (isCanceled feedback (checks st)); [discriminate | ].
    destruct (resolve P rl (fields source) feature) as [pf | e | ]; try discriminate.
    + destruct (build_feature fuel P rl (sourceCrs source) feature pf) as [f | e | ];
        try discriminate.
      apply IH. exact H.
    + apply IH. exact H.
Qed.

(** The loop on a prefix of [N] features and a signal observed at the
    next check. *)
Lemma loop_cancelled_after (features : list QgsFeature) (N : nat) (st : LoopState) :
  (N < List.length features)%nat ->
  loop (firstn N features) initial = (Completed, st) ->
  isCanceled feedback N = true ->
  loop features initial = (Cancelled, bump_check st)
  /\ (List.length (sink st) + numbad st = N)%nat
  /\ checks st = N
  /\ Forall (complete_geometry fuel P rl (sourceCrs source)) (sink st).
Proof.
  intros HN Hprefix Hcancel.
  destruct (loop_invariant _ _ Hprefix) as [new [Hsink [Hall Hdone]]].
  destruct (Hdone eq_refl) as [Hcount Hchecks].
  simpl in Hsink, Hcount, Hchecks. subst new.
  rewrite firstn_length_le in Hcount, Hchecks by lia.
  assert (Hsplit : exists feature rest, skipn N features = feature :: rest).
  { destruct (skipn N features) as [| feature rest] eqn:Hskip; [ | eauto].
    apply (f_equal (@List.length _)) in Hskip.
    rewrite length_skipn in Hskip. simpl in Hskip. lia. }
  destruct Hsplit as [feature [rest Hskip]].
  split.
  - rewrite <- (firstn_skipn N features) at 1.
    erewrite loop_app by eassumption. rewrite Hskip.
    apply loop_cancelled. rewrite Hchecks. exact Hcancel.
  - split; [exact Hcount | ].
    split; [exact Hchecks | exact Hall].
Qed.

(** The run is its loop, once the values before the loop are there. *)
Lemma processAlgorithm_loop (s : status) (st : LoopState) :
  run_level P = Ret rl ->
  loop (getFeatures source) initial = (s, st) ->
  processAlgorithm fuel P source feedback
  = mkOutcome s (output_fields P source) (output_type P) st (report source s st).
Proof.
  intros Hrun Hloop. unfold processAlgorithm. rewrite Hrun, Hloop. reflexivity.
Qed.

(** C9. The cancellation signal is read once before each feature.
    When the first [N] of the [M] features have been processed and
    the signal is then observed, the loop stops at once and the run
    returns: the sink holds exactly what those [N] features wrote,
    which is [N] features less the rejected ones, [N + 1] checks have
    been made, and each written feature has its complete ring, one
    point per sampled angle. *)
Theorem cancellation_keeps_written_features (N : nat) (st : LoopState) :
  run_level P = Ret rl ->
  (N < List.length (getFeatures source))%nat ->
  loop (firstn N (getFeatures source)) initial = (Completed, st) ->
  isCanceled feedback N = true ->
  processAlgorithm fuel P source feedback
  = mkOutcome Cancelled (output_fields P source) (output_type P) (bump_check st)
      (report source Cancelled (bump_check st))
  /\ sink (bump_check st) = sink st
  /\ (List.length (sink st) + numbad st = N)%nat
  /\ checks (bump_check st) = S N
  /\ Forall (complete_geometry fuel P rl (sourceCrs source)) (sink st).
Proof.
  intros Hrun HN Hprefix Hcancel.
  destruct (loop_cancelled_after _ HN Hprefix Hcancel) as [Hloop [Hcount [Hchecks Hall]]].
  split; [apply processAlgorithm_loop; assumption | ].
  split; [reflexivity | ].
  split; [exact Hcount | ].
  split; [simpl; rewrite Hchecks; reflexivity | exact Hall].
Qed.

End RunFacts.

(** ** The angular step *)

Section StepFacts.

Open Scope float_scope.

(** The angles visited do not depend on the fuel that sufficed. *)
Lemma sample_angles_deterministic (fuel fuel' : nat) (st angle : float)
    (angles angles' : list float) :
  sample_angles fuel st angle = Ret angles ->
  sample_angles fuel' st angle = Ret angles' ->
  angles = angles'.
Proof.
  intros H H'.
  apply sample_angles_fuel with (extra := fuel') in H.
  apply sample_angles_fuel with (extra := fuel) in H'.
  rewrite Nat.add_comm in H'. rewrite H in H'. inversion H'. reflexivity.
Qed.

(** Seven steps of 360.0 / 7 from 0.0. *)
Lemma seven_steps_angles :
  exists angles,
    sample_angles 8 (360 / 7) 0 = Ret angles
    /\ List.length angles = 7%nat
    /\ forallb (fun a => a <? 360) angles = true.
Proof.
  eexists. split; [vm_compute; reflexivity | ].
  split; vm_compute; reflexivity.
Qed.

(** C3 (the code at segments = 7). The step is 360.0 / 7, and
    360.0 / step is 7.0, so that eight samples are due; adding the
    step seven times to 0.0 gives 360.00000000000006, which fails the
    test [angle <= 360.0]: the loop samples seven angles, not eight,
    every one of them is below 360, and whatever the host and the
    feature the ring has seven points: the curve is not closed. *)
Theorem seven_segments_give_seven_samples :
  (s <- Py.float_of_int 7 ;; Py.truediv 360 s) = Ret (360 / 7)
  /\ 360 / (360 / 7) = 7
  /\ (360 <? 0 + 360 / 7 + 360 / 7 + 360 / 7 + 360 / 7 + 360 / 7 + 360 / 7 + 360 / 7) = true
  /\ (exists angles,
        sample_angles 8 (360 / 7) 0 = Ret angles
        /\ List.length angles = 7%nat
        /\ forallb (fun a => a <? 360) angles = true)
  /\ (forall (host : Host) (fuel : nat) (rr : float) (l : Z) (sa : float)
        (pt : QgsPointXY) (out : list QgsPointXY),
        sample_loop fuel rr l sa pt (360 / 7) 0 [] = Ret out ->
        List.length out = 7%nat).
Proof.
  split; [vm_compute; reflexivity | ].
  split; [vm_compute; reflexivity | ].
  split; [vm_compute; reflexivity | ].
  split; [exact seven_steps_angles | ].
  intros host fuel rr l sa pt out H.
  apply sample_loop_inv in H as Hinv.
  destruct Hinv as [angles [ps [Hang [Hall Hout]]]].
  destruct seven_steps_angles as [angles7 [H7 [Hlen _]]].
  assert (Heq : angles = angles7)
    by (eapply sample_angles_deterministic; eassumption).
  subst angles.
  simpl in Hout. subst out.
  rewrite <- (Forall2_length_eq Hall). exact Hlen.
Qed.

(** With the default of 720 segments the step is 0.5 and the loop
    samples 721 angles, the last of them 360. *)
Lemma default_segments_give_721_samples :
  exists angles,
    sample_angles 722 (360 / 720) 0 = Ret angles
    /\ List.length angles = 721%nat
    /\ last angles 0 = 360.
Proof.
  eexists. split; [vm_compute; reflexivity | ].
  split; vm_compute; reflexivity.
Qed.

(** Of the segment counts from 4 to 2000, each makes the loop end
    within two turns more than the segments; 1002 of them give
    [segments + 1] samples and 995 give [segments] only. *)
Lemma segment_counts_up_to_2000 :
  forallb (fun n => closes n || falls_short n) segment_range = true
  /\ List.length (filter closes segment_range) = 1002%nat
  /\ List.length (filter falls_short segment_range) = 995%nat.
Proof.
  split; [vm_compute; reflexivity | ].
  split; vm_compute; reflexivity.
Qed.

End StepFacts.

(** ** Fuel *)

Section FuelFacts.

Context {host : Host}.

Open Scope float_scope.

Lemma math_1_returns_or_raises (f : float -> float) (x : float) :
  returns_or_raises (Py.math_1 f x).
Proof.
  unfold Py.math_1.
  destruct (is_nan (f x) && negb (is_nan x)); [right; eauto | ].
  destruct (is_infinity (f x) && is_finite x); [right | left]; eauto.
Qed.

Lemma sample_pair_returns_or_raises (rr : float) (l : Z) (sa angle : float) :
  returns_or_raises (sample_pair rr l sa angle).
Proof.
  unfold sample_pair, Py.int_add_float, math_cos, math_sin, Py.math_sqrt.
  apply bind_returns_or_raises.
  { apply bind_returns_or_raises; [apply float_of_int_returns_or_raises | ].
    intros x. left. eauto. }
  intros l1.
  apply bind_returns_or_raises; [apply math_1_returns_or_raises | intros ca].
  apply bind_returns_or_raises; [apply math_1_returns_or_raises | intros cb].
  apply bind_returns_or_raises; [apply math_1_returns_or_raises | intros sa'].
  apply bind_returns_or_raises; [apply math_1_returns_or_raises | intros sb].
  apply bind_returns_or_raises; [apply math_1_returns_or_raises | intros dist].
  left. eauto.
Qed.

Lemma sample_point_returns_or_raises (rr : float) (l : Z) (sa : float)
    (pt : QgsPointXY) (angle : float) :
  returns_or_raises (sample_point rr l sa pt angle).
Proof.
  unfold sample_point.
  apply bind_returns_or_raises; [apply sample_pair_returns_or_raises | ].
  intros [a2 dist].
  apply bind_returns_or_raises; [apply lift_option_returns_or_raises | ].
  intros [lat2 lon2]. left. eauto.
Qed.

Lemma mapM_returns_or_raises (A B : Type) (f : A -> comp B) (l : list A) :
  (forall a, returns_or_raises (f a)) -> returns_or_raises (mapM f l).
Proof.
  intros Hf. induction l as [| a l IH]; simpl; [left; eauto | ].
  apply bind_returns_or_raises; [apply Hf | intros b].
  apply bind_returns_or_raises; [exact IH | intros bs].
  left. eauto.
Qed.

(** A feature is built, or an exception is raised, as soon as the
    fuel suffices for the angles of the step. *)
Lemma build_feature_returns_or_raises (fuel : nat) (P : Parameters) (rl : RunLevel)
    (srcCRS : crs) (feature : QgsFeature) (pf : PerFeature) (angles : list float) :
  sample_angles fuel (step rl) 0 = Ret angles ->
  returns_or_raises (build_feature fuel P rl srcCRS feature pf).
Proof.
  intros Hang. rewrite build_feature_stages.
  apply bind_returns_or_raises.
  { destruct (geometry feature); simpl; [left | right | right]; eauto. }
  intros pt0.
  apply bind_returns_or_raises.
  { unfold anchor. apply bind_returns_or_raises.
    - destruct (geometry feature); simpl; [left | right | right]; eauto.
    - intros pt. destruct (negb _); [apply lift_option_returns_or_raises | left; eauto]. }
  intros pt.
  apply bind_returns_or_raises.
  { erewrite sample_loop_angles by eassumption.
    apply bind_returns_or_raises.
    - apply mapM_returns_or_raises. intros a. apply sample_point_returns_or_raises.
    - intros ps. left. eauto. }
  intros raw.
  apply bind_returns_or_raises.
  { unfold to_sink. destruct (negb _); [ | left; eauto].
    apply mapM_returns_or_raises. intros a. apply lift_option_returns_or_raises. }
  intros pts. left. eauto.
Qed.

(** The feature loop then ends by itself, by cancellation or by an
    exception. *)
Lemma feature_loop_terminates (fuel : nat) (P : Parameters) (rl : RunLevel)
    (source : FeatureSource) (feedback : Feedback) (angles : list float)
    (fs : list QgsFeature) :
  sample_angles fuel (step rl) 0 = Ret angles ->
  forall st, fst (feature_loop fuel P rl source feedback fs st) <> Timeout.
Proof.
  intros Hang. induction fs as [| feature rest IH]; intros st; simpl; [discriminate | ].
  destruct (isCanceled feedback (checks st)); [discriminate | ].
  destruct (resolve_returns_or_raises P rl (fields source) feature) as [[pf Hr] | [e Hr]];
    rewrite Hr; [ | apply IH].
  destruct (@build_feature_returns_or_raises fuel P rl (sourceCrs source) feature pf
              angles Hang) as [[f Hb] | [e Hb]]; rewrite Hb; [apply IH | discriminate].
Qed.

(** More fuel changes nothing once the angles are reached. *)
Lemma sample_loop_fuel (fuel extra : nat) (rr : float) (l : Z) (sa : float)
    (pt : QgsPointXY) (st : float) (angles : list float) (pts : list QgsPointXY) :
  sample_angles fuel st 0 = Ret angles ->
  sample_loop (fuel + extra) rr l sa pt st 0 pts = sample_loop fuel rr l sa pt st 0 pts.
Proof.
  intros Hang.
  erewrite (sample_loop_angles fuel) by eassumption.
  apply sample_angles_fuel with (extra := extra) in Hang.
  erewrite (sample_loop_angles (fuel + extra)) by eassumption. reflexivity.
Qed.

Lemma feature_loop_fuel (fuel extra : nat) (P : Parameters) (rl : RunLevel)
    (source : FeatureSource) (feedback : Feedback) (angles : list float)
    (fs : list QgsFeature) :
  sample_angles fuel (step rl) 0 = Ret angles ->
  forall st,
    feature_loop (fuel + extra) P rl source feedback fs st
    = feature_loop fuel P rl source feedback fs st.
Proof.
  intros Hang. induction fs as [| feature rest IH]; intros st; simpl; [reflexivity | ].
  destruct (isCanceled feedback (checks st)); [reflexivity | ].
  destruct (resolve P rl (fields source) feature) as [pf | e | ]; [ | apply IH | reflexivity].
  rewrite !build_feature_stages.
  destruct (asPoint (geometry feature)) as [pt0 | e | ]; simpl; try reflexivity.
  destruct (anchor (sourceCrs source) feature) as [pt | e | ]; simpl; try reflexivity.
  rewrite (@sample_loop_fuel fuel extra (r pf) (lobes2 pf) (sangle pf) pt (step rl)
             angles [] Hang).
  destruct (sample_loop fuel (r pf) (lobes2 pf) (sangle pf) pt (step rl) 0 [])
    as [raw | e | ]; simpl; try reflexivity.
  destruct (to_sink (sourceCrs source) (makeIdlCrossingsPositive raw))
    as [pts | e | ]; simpl; [apply IH | reflexivity | reflexivity].
Qed.

(** The step of a run is 360.0 / segments. *)
Lemma run_level_step (P : Parameters) (rl : RunLevel) :
  run_level P = Ret rl ->
  (s <- Py.float_of_int (segments P) ;; Py.truediv 360 s) = Ret (step rl).
Proof.
  unfold run_level. intros H.
  bind_inv H. bind_inv H. bind_inv H. bind_inv H.
  inversion H; subst rl. simpl. rewrite Ha1. simpl. exact Ha2.
Qed.

(** For every segment count from 4 to 2000, a fuel of two turns more
    than the segments lets every run end by itself. *)
Lemma runs_up_to_2000_segments_terminate (P : Parameters) (rl : RunLevel)
    (source : FeatureSource) (feedback : Feedback) (fs : list QgsFeature)
    (st : LoopState) :
  In (segments P) segment_range ->
  run_level P = Ret rl ->
  fst (feature_loop (Z.to_nat (segments P) + 2) P rl source feedback fs st) <> Timeout.
Proof.
  intros Hin Hrun.
  destruct segment_counts_up_to_2000 as [Hall _].
  rewrite forallb_forall in Hall. specialize (Hall _ Hin).
  assert (Hcount : exists n, sample_count (segments P) = Ret n).
  { unfold closes, falls_short in Hall.
    destruct (sample_count (segments P)) as [n | e | ]; [eauto | discriminate | discriminate]. }
  destruct Hcount as [n Hcount].
  unfold sample_count in Hcount.
  apply run_level_step in Hrun.
  bind_inv Hrun. rewrite Ha in Hcount. simpl in Hcount.
  rewrite Hrun in Hcount. simpl in Hcount.
  bind_inv Hcount.
  eapply feature_loop_terminates. eassumption.
Qed.

End FuelFacts.

(** ** The antimeridian normalizer *)

Section NormalizerFacts.

Open Scope float_scope.

Lemma shifted_in_candidates (p q : QgsPointXY) :
  Utils.shifted p q -> In q (Utils.candidates p).
Proof.
  destruct q as [qx qy]. unfold Utils.shifted, Utils.candidates. simpl.
  intros [Hy [Hx | [Hx | Hx]]]; subst qx qy; auto.
Qed.

Lemma shifted_in_all_shifts (pts out : list QgsPointXY) :
  Forall2 Utils.shifted pts out -> In out (Utils.all_shifts pts).
Proof.
  induction 1 as [| p q pts out Hpq _ IH]; [left; reflexivity | ].
  cbn [Utils.all_shifts].
  apply in_flat_map. exists out. split; [exact IH | ].
  apply in_map with (f := fun q' => q' :: out).
  apply shifted_in_candidates. exact Hpq.
Qed.

(** Whatever the normalizer of the plugin is, it does not meet the
    spec's property on a path of three windings: whichever of its
    points are shifted by 360 degrees, a jump of more than 180
    degrees remains. *)
Lemma no_shift_fits_three_windings (f : list QgsPointXY -> list QgsPointXY) :
  ~ Utils.normalized_by f Utils.three_windings.
Proof.
  intros H. destruct H as [_ [Hjump Hall]]; [vm_compute; reflexivity | ].
  apply shifted_in_all_shifts in Hall.
  assert (Hevery : forallb Utils.hasIdlJump (Utils.all_shifts Utils.three_windings) = true)
    by (vm_compute; reflexivity).
  rewrite forallb_forall in Hevery.
  rewrite (Hevery _ Hall) in Hjump. discriminate.
Qed.

End NormalizerFacts.

(** ** Runs on the demonstration host *)

Section Runs.

Open Scope float_scope.

(** The resolver accepts whatever lobe count the field gives, as long
    as its sum with 2.0 is not zero: there is no test against 1. *)
Lemma resolve_accepts_any_lobes (host : Host) (P : Parameters) (rl : RunLevel)
    (fs : list QgsField) (feature : QgsFeature) (sa rad d : float) (n : Z) :
  Py.truthy (lobescol P) = true ->
  sangle_of P fs feature = Ret sa ->
  lobes_of P fs feature = Ret n ->
  radius_of P rl fs feature = Ret rad ->
  Py.int_add_float n 2 = Ret d ->
  (d =? 0) = false ->
  resolve P rl fs feature = Ret (mkPerFeature sa n rad (rad / d)).
Proof.
  intros Ht Hs Hl Hr Hd Hz.
  rewrite resolve_stages, Hs, Hl, Hr. simpl.
  unfold scale_of. rewrite Ht. simpl. rewrite Hd. simpl.
  unfold Py.truediv. rewrite Hz. reflexivity.
Qed.

(** C4. With the lobes field configured, a feature whose lobes value
    is 0 is not rejected: it is resolved with a lobe count of 0 and a
    scale radius of half the radius, it is not counted as bad, and it
    is written to the sink, its ring five copies of the input point.
    The lobe count of the run has a declared minimum of 1; the lobe
    count of a feature has none. *)
Theorem lobes_override_zero_is_processed :
  getitem Demo.layer_fields Demo.f_zero (lobescol Demo.mixed_parameters) = Ret (QInt 0)
  /\ resolve (host := Demo.host) Demo.mixed_parameters
       (Demo.run_of Demo.mixed_parameters) Demo.layer_fields Demo.f_zero
     = Ret (mkPerFeature 0 0 40000 20000)
  /\ processAlgorithm (host := Demo.host) 6 Demo.mixed_parameters
       (Demo.layer [Demo.f_zero]) Demo.never
     = mkOutcome Completed Demo.layer_fields WkbPolygon
         (mkState
            [mkFeature (attributes Demo.f_zero)
               (fromPolygonXY [[mkPoint 10 20; mkPoint 10 20; mkPoint 10 20;
                                mkPoint 10 20; mkPoint 10 20]])]
            0 1)
         None.
Proof.
  split; [reflexivity | ].
  split; vm_compute; reflexivity.
Qed.


(** With seven segments the ring written for [fa] has seven points
    and ends away from where it starts; with eight it has nine and
    ends where it starts. *)
Lemma seven_segments_ring_is_open :
  List.length (Demo.ring_with 7 Demo.fa) = 7%nat
  /\ (px (hd (mkPoint 0 0) (Demo.ring_with 7 Demo.fa))
      =? px (last (Demo.ring_with 7 Demo.fa) (mkPoint 0 0))) = false.
Proof.
  split; vm_compute; reflexivity.
Qed.

Lemma eight_segments_ring_is_closed :
  List.length (Demo.ring_with 8 Demo.fa) = 9%nat
  /\ hd (mkPoint 0 0) (Demo.ring_with 8 Demo.fa)
     = last (Demo.ring_with 8 Demo.fa) (mkPoint 0 0).
Proof.
  split; vm_compute; reflexivity.
Qed.

End Runs.

(** ** The theorems at concrete layers *)

Section Witnesses.

Open Scope float_scope.

(** The feature [fa] under the default parameters: five samples, each
    the solver's answer to the spec's bearing and distance. *)
Lemma samples_follow_epicycloid_witness :
  build_feature (host := Demo.host) 6 Demo.defaults (Demo.run_of Demo.defaults)
    epsg4326 Demo.fa (Demo.resolved Demo.defaults (Demo.layer [Demo.fa]) Demo.fa)
  = Ret (Demo.built 6 Demo.defaults (Demo.layer [Demo.fa]) Demo.fa)
  /\ exists pt angles lobesf raw pts,
       anchor (host := Demo.host) epsg4326 Demo.fa = Ret pt
       /\ sample_angles 6 (step (Demo.run_of Demo.defaults)) 0 = Ret angles
       /\ Py.float_of_int (lobes2 (Demo.resolved Demo.defaults (Demo.layer [Demo.fa]) Demo.fa))
          = Ret lobesf
       /\ Forall2 (solved_from (host := Demo.host) pt
                     (r (Demo.resolved Demo.defaults (Demo.layer [Demo.fa]) Demo.fa))
                     lobesf
                     (sangle (Demo.resolved Demo.defaults (Demo.layer [Demo.fa]) Demo.fa)))
            angles raw
       /\ to_sink (host := Demo.host) epsg4326 (Utils.makeIdlCrossingsPositive raw) = Ret pts
       /\ geometry (Demo.built 6 Demo.defaults (Demo.layer [Demo.fa]) Demo.fa)
          = shape Demo.defaults pts.
Proof.
  assert (H : build_feature (host := Demo.host) 6 Demo.defaults (Demo.run_of Demo.defaults)
                epsg4326 Demo.fa (Demo.resolved Demo.defaults (Demo.layer [Demo.fa]) Demo.fa)
              = Ret (Demo.built 6 Demo.defaults (Demo.layer [Demo.fa]) Demo.fa))
    by (vm_compute; reflexivity).
  split; [exact H | ].
  exact (@samples_follow_epicycloid Demo.host 6 Demo.defaults (Demo.run_of Demo.defaults)
           epsg4326 Demo.fa (Demo.resolved Demo.defaults (Demo.layer [Demo.fa]) Demo.fa)
           (Demo.built 6 Demo.defaults (Demo.layer [Demo.fa]) Demo.fa) H).
Defined.

(** The feature [f_text], whose lobes field holds a word, alone and
    followed by [fa]: [fa] is written as it is without [f_text]
    before it, and one feature is counted as bad. *)
Lemma unparsable_override_witness :
  unparsable (py_int (host := Demo.host)) Demo.layer_fields Demo.f_text "lobes"
  /\ feature_loop (host := Demo.host) 6 Demo.mixed_parameters
       (Demo.run_of Demo.mixed_parameters) (Demo.layer [Demo.f_text; Demo.fa]) Demo.never
       [Demo.f_text] initial
     = (Completed, mkState [] 1 1)
  /\ feature_loop (host := Demo.host) 6 Demo.mixed_parameters
       (Demo.run_of Demo.mixed_parameters) (Demo.layer [Demo.f_text; Demo.fa]) Demo.never
       [Demo.f_text; Demo.fa] initial
     = (Completed,
        mkState [Demo.built 6 Demo.mixed_parameters (Demo.layer [Demo.fa]) Demo.fa] 1 2).
Proof.
  assert (H : unparsable (py_int (host := Demo.host)) Demo.layer_fields Demo.f_text "lobes").
  { split; [reflexivity | ].
    exists (QString "many"), ValueError. split; reflexivity. }
  split; [exact H | ].
  pose proof (@unparsable_override_is_skipped_and_counted Demo.host 6
                Demo.mixed_parameters (Demo.run_of Demo.mixed_parameters)
                (Demo.layer [Demo.f_text; Demo.fa]) Demo.never Demo.f_text [Demo.fa]
                initial eq_refl (or_intror (or_introl H))) as [Hone [_ Hall]].
  split; [exact Hone | ].
  apply (Hall (fun _ => eq_refl) Completed
           (mkState [Demo.built 6 Demo.mixed_parameters (Demo.layer [Demo.fa]) Demo.fa] 0 1)).
  vm_compute. reflexivity.
Defined.

(** The feature [f_minus2], whose lobes field holds -2, alone and
    followed by [fa]. *)
Lemma lobes_minus_two_witness :
  py_int (host := Demo.host) (QInt (-2)) = Ret (-2)%Z
  /\ resolve (host := Demo.host) Demo.mixed_parameters (Demo.run_of Demo.mixed_parameters)
       Demo.layer_fields Demo.f_minus2
     = Raise ZeroDivisionError
  /\ feature_loop (host := Demo.host) 6 Demo.mixed_parameters
       (Demo.run_of Demo.mixed_parameters) (Demo.layer [Demo.f_minus2; Demo.fa]) Demo.never
       [Demo.f_minus2] initial
     = (Completed, mkState [] 1 1)
  /\ feature_loop (host := Demo.host) 6 Demo.mixed_parameters
       (Demo.run_of Demo.mixed_parameters) (Demo.layer [Demo.f_minus2; Demo.fa]) Demo.never
       [Demo.f_minus2; Demo.fa] initial
     = (Completed,
        mkState [Demo.built 6 Demo.mixed_parameters (Demo.layer [Demo.fa]) Demo.fa] 1 2).
Proof.
  pose proof (@lobes_minus_two_is_skipped_and_counted Demo.host 6
                Demo.mixed_parameters (Demo.run_of Demo.mixed_parameters)
                (Demo.layer [Demo.f_minus2; Demo.fa]) Demo.never Demo.f_minus2 [Demo.fa]
                initial (QInt (-2)) eq_refl eq_refl eq_refl eq_refl)
    as [_ [_ [Hone [_ [Hall _]]]]].
  split; [reflexivity | ].
  split; [vm_compute; reflexivity | ].
  split; [exact Hone | ].
  apply (Hall (fun _ => eq_refl) Completed
           (mkState [Demo.built 6 Demo.mixed_parameters (Demo.layer [Demo.fa]) Demo.fa] 0 1)).
  vm_compute. reflexivity.
Defined.

(** The feature [f_same], whose fields repeat the defaults of five
    lobes and 40 km, with both override fields configured. *)
Lemma scale_radius_paths_agree_witness :
  radius2 (Demo.resolved (Demo.with_radius_field (Demo.with_lobes_field Demo.defaults))
             (Demo.layer [Demo.f_same]) Demo.f_same)
  = radius_m (Demo.run_of (Demo.with_radius_field (Demo.with_lobes_field Demo.defaults)))
  /\ r (Demo.resolved (Demo.with_radius_field (Demo.with_lobes_field Demo.defaults))
          (Demo.layer [Demo.f_same]) Demo.f_same)
     = r2 (Demo.run_of (Demo.with_radius_field (Demo.with_lobes_field Demo.defaults))).
Proof.
  split; [vm_compute; reflexivity | ].
  refine (proj1 (@scale_radius_paths_agree Demo.host
                   (Demo.with_radius_field (Demo.with_lobes_field Demo.defaults))
                   (Demo.run_of (Demo.with_radius_field (Demo.with_lobes_field Demo.defaults)))
                   Demo.layer_fields Demo.f_same
                   (Demo.resolved (Demo.with_radius_field (Demo.with_lobes_field Demo.defaults))
                      (Demo.layer [Demo.f_same]) Demo.f_same)
                   _ _ _ _)); vm_compute; reflexivity.
Defined.



(** The feature [f_local], stored at (1000000, 2000000) in a layer
    that is not in EPSG:4326, with the export flag set: the shape is
    computed around (10, 20) degrees and brought back, the two
    appended attributes are the stored coordinates. *)
Lemma original_coordinates_witness :
  build_feature (host := Demo.host) 6 (Demo.with_export Demo.defaults)
    (Demo.run_of Demo.defaults) Demo.local_crs Demo.f_local
    (Demo.resolved Demo.defaults (Demo.local_layer [Demo.f_local]) Demo.f_local)
  = Ret (Demo.built 6 (Demo.with_export Demo.defaults)
           (Demo.local_layer [Demo.f_local]) Demo.f_local)
  /\ anchor (host := Demo.host) Demo.local_crs Demo.f_local = Ret (mkPoint 10 20)
  /\ attributes (Demo.built 6 (Demo.with_export Demo.defaults)
                   (Demo.local_layer [Demo.f_local]) Demo.f_local)
     = attributes Demo.f_local ++ [QDouble 1000000; QDouble 2000000].
Proof.
  assert (H : build_feature (host := Demo.host) 6 (Demo.with_export Demo.defaults)
                (Demo.run_of Demo.defaults) Demo.local_crs Demo.f_local
                (Demo.resolved Demo.defaults (Demo.local_layer [Demo.f_local]) Demo.f_local)
              = Ret (Demo.built 6 (Demo.with_export Demo.defaults)
                       (Demo.local_layer [Demo.f_local]) Demo.f_local))
    by (vm_compute; reflexivity).
  split; [exact H | ].
  split; [vm_compute; reflexivity | ].
  exact (proj1 (@original_coordinates_are_appended Demo.host 6 (Demo.with_export Demo.defaults)
                  (Demo.run_of Demo.defaults) (Demo.local_layer [Demo.f_local])
                  Demo.local_crs Demo.f_local
                  (Demo.resolved Demo.defaults (Demo.local_layer [Demo.f_local]) Demo.f_local)
                  (Demo.built 6 (Demo.with_export Demo.defaults)
                     (Demo.local_layer [Demo.f_local]) Demo.f_local)
                  (mkPoint 1000000 2000000) eq_refl eq_refl H)).
Defined.

(** Three features, the second rejected, and a cancellation observed
    before the third. *)
Lemma cancellation_witness :
  processAlgorithm (host := Demo.host) 6 (Demo.with_lobes_field Demo.defaults)
    (Demo.layer [Demo.fa; Demo.f_text; Demo.fb]) (Demo.cancel_at 2)
  = mkOutcome Cancelled Demo.layer_fields WkbPolygon
      (bump_check (Demo.state_after 6 (Demo.with_lobes_field Demo.defaults)
                     (Demo.cancel_at 2) [Demo.fa; Demo.f_text]))
      (Some (1%nat, 3%Z))
  /\ List.length (sink (Demo.state_after 6 (Demo.with_lobes_field Demo.defaults)
                          (Demo.cancel_at 2) [Demo.fa; Demo.f_text])) = 1%nat
  /\ numbad (Demo.state_after 6 (Demo.with_lobes_field Demo.defaults)
               (Demo.cancel_at 2) [Demo.fa; Demo.f_text]) = 1%nat.
Proof.
  pose proof (@cancellation_keeps_written_features Demo.host 6
                (Demo.with_lobes_field Demo.defaults)
                (Demo.run_of (Demo.with_lobes_field Demo.defaults))
                (Demo.layer [Demo.fa; Demo.f_text; Demo.fb]) (Demo.cancel_at 2) 2
                (Demo.state_after 6 (Demo.with_lobes_field Demo.defaults)
                   (Demo.cancel_at 2) [Demo.fa; Demo.f_text])) as H.
  destruct H as [Hrun _].
  - vm_compute. reflexivity.
  - simpl. lia.
  - vm_compute. reflexivity.
  - reflexivity.
  - split; [rewrite Hrun; vm_compute; reflexivity | ].
    split; vm_compute; reflexivity.
Defined.

End Witnesses.

(** * Further properties of the run *)

(** ** What a completed loop has done *)

Section Accounting.

Context {host : Host}.

Variables (fuel : nat) (P : Parameters) (rl : RunLevel) (source : FeatureSource)
          (feedback : Feedback).

Abbreviation loop := (feature_loop fuel P rl source feedback).
Abbreviation run := (processAlgorithm fuel P source feedback).

(** The features a completed loop wrote are those built, in order,
    for the features whose parameters resolve; the others are the
    ones it counted. *)
Lemma loop_completed_partition (fs : list QgsFeature) :
  forall (st st' : LoopState),
    loop fs st = (Completed, st') ->
    exists new,
      sink st' = sink st ++ new
      /\ Forall2 (fun feature f =>
                    exists pf,
                      resolve P rl (fields source) feature = Ret pf
                      /\ build_feature fuel P rl (sourceCrs source) feature pf = Ret f)
           (filter (accepted P rl (fields source)) fs) new
      /\ numbad st'
         = (numbad st + List.length (filter (rejected P rl (fields source)) fs))%nat
      /\ checks st' = (checks st + List.length fs)%nat.
Proof.
  induction fs as [| feature rest IH]; intros st st' H.
  - simpl in H. inversion H; subst. exists []. rewrite app_nil_r. simpl.
    split; [reflexivity | ]. split; [constructor | ]. split; lia.
  - simpl in H. unfold rejected, accepted. simpl.
    destruct (isCanceled feedback (checks st)); [discriminate | ].
    destruct (resolve P rl (fields source) feature) as [pf | e | ] eqn:Hr;
      [ | | discriminate].
    + destruct (build_feature fuel P rl (sourceCrs source) feature pf) as [f | e | ] eqn:Hb;
        try discriminate.
      apply IH in H. destruct H as [new [Hsink [Hall [Hbad Hchecks]]]].
      exists (f :: new). simpl in *. rewrite <- app_assoc in Hsink.
      split; [exact Hsink | ].
      split; [constructor; [exists pf; split; assumption | exact Hall] | ].
      unfold rejected, accepted in Hbad. split; lia.
    + apply IH in H. destruct H as [new [Hsink [Hall [Hbad Hchecks]]]].
      exists new. simpl in *.
      split; [exact Hsink | ]. split; [exact Hall | ].
      unfold rejected, accepted in Hbad. split; lia.
Qed.

(** The outcome of a run whose values before the loop are [rl]. *)
Lemma run_outcome :
  run_level P = Ret rl ->
  exists s st,
    loop (getFeatures source) initial = (s, st)
    /\ run = mkOutcome s (output_fields P source) (output_type P) st (report source s st).
Proof.
  intros Hrun.
  destruct (loop (getFeatures source) initial) as [s st] eqn:Hloop.
  exists s, st. split; [reflexivity | ].
  apply processAlgorithm_loop with (rl := rl); assumption.
Qed.

(** X1. When the run reaches the end of the layer, every input feature
    has been written to the sink or counted as bad, never both and
    never neither, and the cancellation signal has been read once
    for each of them. *)
Theorem every_feature_is_written_or_counted :
  run_level P = Ret rl ->
  result run = Completed ->
  (List.length (sink (final run)) + numbad (final run)
   = List.length (getFeatures source))%nat
  /\ checks (final run) = List.length (getFeatures source).
Proof.
  intros Hrun Hdone.
  destruct (run_outcome Hrun) as [s [st [Hloop Hout]]].
  rewrite Hout in Hdone |- *. simpl in *. subst s.
  pose proof Hloop as Hinv. apply loop_invariant in Hinv.
  destruct Hinv as [new [Hsink [_ Hcount]]].
  destruct (Hcount eq_refl) as [Hn Hk]. simpl in *. subst new. split; lia.
Qed.

(** X2. When the run reaches the end of the layer, the sink holds one
    feature for each input feature whose parameters resolve, in the
    order of the input, and each carries the attributes of its input
    feature, followed by the stored x and y of the point when the
    export flag is set. *)
Theorem sink_follows_accepted_features :
  run_level P = Ret rl ->
  result run = Completed ->
  Forall2 (fun feature f =>
             exists pt0,
               geometry feature = PointGeometry pt0
               /\ attributes f
                  = attributes feature
                    ++ (if export_geom P then [QDouble (px pt0); QDouble (py pt0)] else []))
    (filter (accepted P rl (fields source)) (getFeatures source))
    (sink (final run)).
Proof.
  intros Hrun Hdone.
  destruct (run_outcome Hrun) as [s [st [Hloop Hout]]].
  rewrite Hout in Hdone |- *. simpl in *. subst s.
  apply loop_completed_partition in Hloop.
  destruct Hloop as [new [Hsink [Hall _]]].
  simpl in Hsink. subst new.
  induction Hall as [| feature f fs' new' [pf [_ Hb]] _ IH]; constructor; [ | exact IH].
  apply build_feature_inv in Hb.
  destruct Hb as [pt0 [pt [raw [pts [Hpt0 [_ [_ [_ Hf]]]]]]]].
  exists pt0. split.
  - destruct (geometry feature); simpl in Hpt0; try discriminate.
    inversion Hpt0. reflexivity.
  - subst f. simpl. unfold output_attributes.
    destruct (export_geom P); [rewrite <- app_assoc | rewrite app_nil_r]; reflexivity.
Qed.

(** X3. When the run reaches the end of the layer, the counter of bad
    features is the number of input features whose parameters do not
    resolve; the diagnostic is pushed exactly when that number is
    not zero, and reports it with the feature count the source
    announces. *)
Theorem bad_features_are_counted_and_reported :
  run_level P = Ret rl ->
  result run = Completed ->
  numbad (final run)
  = List.length (filter (rejected P rl (fields source)) (getFeatures source))
  /\ pushInfo run
     = (if (0 <? numbad (final run))%nat
        then Some (numbad (final run), featureCount source)
        else None).
Proof.
  intros Hrun Hdone.
  destruct (run_outcome Hrun) as [s [st [Hloop Hout]]].
  rewrite Hout in Hdone |- *. simpl in *. subst s.
  apply loop_completed_partition in Hloop.
  destruct Hloop as [new [_ [_ [Hbad _]]]].
  simpl in Hbad. split; [exact Hbad | reflexivity].
Qed.

(** Every feature a loop adds to the sink was built from a feature. *)
Lemma loop_adds_built_features (fs : list QgsFeature) :
  forall (st st' : LoopState) (s : status),
    loop fs st = (s, st') ->
    exists new,
      sink st' = sink st ++ new
      /\ Forall (fun f => exists feature pf,
                   In feature fs
                   /\ build_feature fuel P rl (sourceCrs source) feature pf = Ret f) new.
Proof.
  induction fs as [| feature rest IH]; intros st st' s H.
  - simpl in H. inversion H; subst. exists []. rewrite app_nil_r.
    split; [reflexivity | constructor].
  - simpl in H.
    destruct (isCanceled feedback (checks st)).
    { inversion H; subst. exists []. simpl. rewrite app_nil_r.
      split; [reflexivity | constructor]. }
    assert (Hrest : forall st0, loop rest st0 = (s, st') ->
              exists new, sink st' = sink st0 ++ new
                /\ Forall (fun f => exists feature0 pf,
                             In feature0 (feature :: rest)
                             /\ build_feature fuel P rl (sourceCrs source) feature0 pf
                                = Ret f) new).
    { intros st0 H0. apply IH in H0. destruct H0 as [new [Hsink Hall]].
      exists new. split; [exact Hsink | ].
      eapply Forall_impl; [ | exact Hall].
      intros f [feature0 [pf [Hin Hb]]]. exists feature0, pf.
      split; [right; exact Hin | exact Hb]. }
    destruct (resolve P rl (fields source) feature) as [pf | e | ].
    + destruct (build_feature fuel P rl (sourceCrs source) feature pf) as [f | e | ] eqn:Hb.
      * apply Hrest in H. destruct H as [new [Hsink Hall]].
        exists (f :: new). simpl in Hsink. rewrite <- app_assoc in Hsink.
        split; [exact Hsink | ].
        constructor; [ | exact Hall].
        exists feature, pf. split; [left; reflexivity | exact Hb].
      * inversion H; subst. exists []. simpl. rewrite app_nil_r.
        split; [reflexivity | constructor].
      * inversion H; subst. exists []. simpl. rewrite app_nil_r.
        split; [reflexivity | constructor].
    + apply Hrest in H. destruct H as [new [Hsink Hall]].
      exists new. split; [exact Hsink | exact Hall].
    + inversion H; subst. exists []. simpl. rewrite app_nil_r.
      split; [reflexivity | constructor].
Qed.

End Accounting.

(** ** What every run keeps *)

Section Always.

Context {host : Host}.

Variables (fuel : nat) (P : Parameters) (source : FeatureSource) (feedback : Feedback).

Abbreviation run := (processAlgorithm fuel P source feedback).

(** The features in the sink of a run were built by its loop. *)
Lemma run_sink_is_built :
  Forall (fun f => exists rl feature pf,
            run_level P = Ret rl
            /\ In feature (getFeatures source)
            /\ build_feature fuel P rl (sourceCrs source) feature pf = Ret f)
    (sink (final run)).
Proof.
  unfold processAlgorithm.
  destruct (run_level P) as [rl | e | ] eqn:Hrun; simpl; try constructor.
  destruct (feature_loop fuel P rl source feedback (getFeatures source) initial)
    as [s st] eqn:Hloop. simpl.
  apply loop_adds_built_features in Hloop.
  destruct Hloop as [new [Hsink Hall]].
  simpl in Hsink. subst new.
  eapply Forall_impl; [ | exact Hall].
  intros f [feature [pf [Hin Hb]]]. exists rl, feature, pf. auto.
Qed.

(** X4. However the run ends, every feature in the sink has a geometry
    of the type the sink was created with: a polygon of exactly one
    ring when the shape type is 0, a line otherwise. *)
Theorem written_geometry_fits_sink_type :
  Forall (fun f => shape_type (geometry f) = Some (sink_type run)) (sink (final run)).
Proof.
  assert (Htype : sink_type run = output_type P).
  { unfold processAlgorithm. destruct (run_level P) as [rl | e | ]; [ | reflexivity ..].
    destruct (feature_loop fuel P rl source feedback (getFeatures source) initial).
    reflexivity. }
  rewrite Htype.
  eapply Forall_impl; [ | exact run_sink_is_built].
  intros f [rl [feature [pf [_ [_ Hb]]]]].
  apply build_feature_inv in Hb.
  destruct Hb as [pt0 [pt [raw [pts [_ [_ [_ [_ Hf]]]]]]]].
  subst f. simpl. unfold shape, output_type.
  destruct (shapetype P =? 0)%Z; reflexivity.
Qed.

Lemma output_fields_length :
  List.length (output_fields P source)
  = (List.length (fields source) + (if export_geom P then 2 else 0))%nat.
Proof.
  unfold output_fields. destruct (export_geom P); [ | lia].
  destruct (getGeomNames (map field_name (fields source))) as [name_x name_y].
  rewrite length_app. reflexivity.
Qed.

Lemma run_sink_fields : sink_fields run = output_fields P source.
Proof.
  unfold processAlgorithm. destruct (run_level P) as [rl | e | ]; [ | reflexivity ..].
  destruct (feature_loop fuel P rl source feedback (getFeatures source) initial).
  reflexivity.
Qed.

(** X5. When every input feature has as many attributes as the layer
    has fields, every feature in the sink has as many attributes as
    the sink has fields, with or without the two exported
    coordinates. *)
Theorem written_attributes_fit_sink_fields :
  Forall (fun feature => List.length (attributes feature) = List.length (fields source))
    (getFeatures source) ->
  Forall (fun f => List.length (attributes f) = List.length (sink_fields run))
    (sink (final run)).
Proof.
  intros Harity. rewrite run_sink_fields, output_fields_length.
  rewrite Forall_forall in Harity.
  eapply Forall_impl; [ | exact run_sink_is_built].
  intros f [rl [feature [pf [_ [Hin Hb]]]]].
  apply build_feature_inv in Hb.
  destruct Hb as [pt0 [pt [raw [pts [_ [_ [_ [_ Hf]]]]]]]].
  subst f. simpl. unfold output_attributes.
  destruct (export_geom P).
  - rewrite !length_app. simpl. rewrite (Harity _ Hin). lia.
  - rewrite (Harity _ Hin). lia.
Qed.

Lemma to_sink_length (srcCRS : crs) (l pts : list QgsPointXY) :
  to_sink srcCRS l = Ret pts -> List.length pts = List.length l.
Proof.
  unfold to_sink. destruct (negb (String.eqb srcCRS epsg4326)); intros H.
  - eapply mapM_length. eassumption.
  - inversion H. reflexivity.
Qed.

Lemma shape_points_shape (pts : list QgsPointXY) :
  shape_points (shape P pts) = pts.
Proof.
  unfold shape. destruct (shapetype P =? 0)%Z; reflexivity.
Qed.

(** X6. With a normalizer that keeps the number of points, every
    feature of the sink has as many points as the sampling loop
    visits angles, which is at least one and the same for all the
    features of the run. *)
Theorem rings_have_one_point_per_angle (rl : RunLevel) (angles : list float) :
  (forall l, List.length (makeIdlCrossingsPositive l) = List.length l) ->
  run_level P = Ret rl ->
  sample_angles fuel (step rl) 0 = Ret angles ->
  (1 <= List.length angles)%nat
  /\ Forall (fun f => List.length (shape_points (geometry f)) = List.length angles)
       (sink (final run)).
Proof.
  intros Hkeep Hrun Hang. split.
  - destruct fuel as [| fuel']; simpl in Hang; [discriminate | ].
    change (PrimFloat.leb 0 360) with true in Hang. cbv iota in Hang.
    apply bind_Ret_inv in Hang. destruct Hang as [rest [_ Hang]].
    inversion Hang. simpl. lia.
  - eapply Forall_impl; [ | exact run_sink_is_built].
    intros f [rl' [feature [pf [Hrun' [_ Hb]]]]].
    rewrite Hrun in Hrun'. inversion Hrun'; subst rl'.
    apply build_feature_inv in Hb.
    destruct Hb as [pt0 [pt [raw [pts [_ [_ [Hloop [Hsink Hf]]]]]]]].
    subst f. simpl. rewrite shape_points_shape.
    apply to_sink_length in Hsink. rewrite Hsink, Hkeep.
    eapply sample_loop_length; eassumption.
Qed.

End Always.

(** ** Layers in batches *)

Section Batches.

Context {host : Host}.

Variables (fuel : nat) (P : Parameters) (rl : RunLevel) (source : FeatureSource)
          (feedback : Feedback).

Abbreviation loop := (feature_loop fuel P rl source feedback).

Hypothesis never_cancelled : forall i, isCanceled feedback i = false.

Lemma after_bump_reject (st d : LoopState) :
  after st (after (reject (bump_check initial)) d) = after (reject (bump_check st)) d.
Proof.
  unfold after, reject, bump_check, initial. simpl. f_equal; lia.
Qed.

Lemma after_bump_add (st d : LoopState) (f : QgsFeature) :
  after st (after (addFeature f (bump_check initial)) d)
  = after (addFeature f (bump_check st)) d.
Proof.
  unfold after, addFeature, bump_check, initial. simpl.
  rewrite <- app_assoc. f_equal; lia.
Qed.

Lemma after_bump (st : LoopState) :
  after st (bump_check initial) = bump_check st.
Proof.
  unfold after, bump_check, initial. simpl. rewrite app_nil_r. f_equal; lia.
Qed.

(** Without cancellation the loop does to any state what it does to
    the initial one. *)
Lemma loop_from (fs : list QgsFeature) :
  forall st,
    loop fs st = (fst (loop fs initial), after st (snd (loop fs initial))).
Proof.
  induction fs as [| feature rest IH]; intros st.
  - simpl. unfold after, initial. simpl.
    rewrite app_nil_r, !Nat.add_0_r. destruct st; reflexivity.
  - simpl. rewrite !never_cancelled.
    destruct (resolve P rl (fields source) feature) as [pf | e | ].
    + destruct (build_feature fuel P rl (sourceCrs source) feature pf) as [f | e | ].
      * rewrite (IH (addFeature f (bump_check st))).
        rewrite (IH (addFeature f (bump_check initial))). simpl.
        rewrite after_bump_add. reflexivity.
      * simpl. rewrite after_bump. reflexivity.
      * simpl. rewrite after_bump. reflexivity.
    + rewrite (IH (reject (bump_check st))).
      rewrite (IH (reject (bump_check initial))). simpl.
      rewrite after_bump_reject. reflexivity.
    + simpl. rewrite after_bump. reflexivity.
Qed.

(** X7. Without cancellation, a layer processed in one go gives what
    its two parts give when processed one after the other: if the
    loop completes on the first part, the sink for the whole is the
    sink of the first part followed by that of the second, the bad
    features add up, and the loop ends as it ends on the second
    part. *)
Theorem batches_compose (fs1 fs2 : list QgsFeature) (st1 st2 : LoopState) (s2 : status) :
  loop fs1 initial = (Completed, st1) ->
  loop fs2 initial = (s2, st2) ->
  loop (fs1 ++ fs2) initial
  = (s2, mkState (sink st1 ++ sink st2) (numbad st1 + numbad st2) (checks st1 + checks st2)).
Proof.
  intros H1 H2.
  erewrite loop_app by eassumption.
  rewrite loop_from, H2. reflexivity.
Qed.

End Batches.

(** ** What the parameters change and what they leave alone *)

Section Dependence.

Open Scope float_scope.

(** X8. For a layer stored in EPSG:4326 the point transform is never
    used: with any other transform the run gives the same outcome. *)
Theorem geographic_layer_is_never_transformed (h : Host)
    (t : crs -> crs -> QgsPointXY -> option QgsPointXY)
    (fuel : nat) (P : Parameters) (source : FeatureSource) (feedback : Feedback) :
  sourceCrs source = epsg4326 ->
  processAlgorithm (host := with_transform t h) fuel P source feedback
  = processAlgorithm (host := h) fuel P source feedback.
Proof.
  destruct source as [c fs n features]. simpl. intros Hcrs. subst c.
  assert (Hloop : forall rl (l : list QgsFeature) st,
             feature_loop (host := with_transform t h) fuel P rl
               (mkSource epsg4326 fs n features) feedback l st
             = feature_loop (host := h) fuel P rl
                 (mkSource epsg4326 fs n features) feedback l st).
  { intros rl l. induction l as [| feature rest IH]; intros st; [reflexivity | ].
    simpl. destruct (isCanceled feedback (checks st)); [reflexivity | ].
    change (resolve (host := with_transform t h) P rl fs feature)
      with (resolve (host := h) P rl fs feature).
    destruct (resolve (host := h) P rl fs feature) as [pf | e | ];
      [ | apply IH | reflexivity].
    change (build_feature (host := with_transform t h) fuel P rl epsg4326 feature pf)
      with (build_feature (host := h) fuel P rl epsg4326 feature pf).
    destruct (build_feature (host := h) fuel P rl epsg4326 feature pf) as [f | e | ];
      [apply IH | reflexivity | reflexivity]. }
  unfold processAlgorithm.
  change (run_level (host := with_transform t h) P) with (run_level (host := h) P).
  change (output_fields (host := with_transform t h) P (mkSource epsg4326 fs n features))
    with (output_fields (host := h) P (mkSource epsg4326 fs n features)).
  destruct (run_level (host := h) P) as [rl | e | ]; [ | reflexivity ..].
  simpl. rewrite Hloop. reflexivity.
Qed.

Context {host : Host}.

(** X9. The shape type changes the kind of geometry and nothing else:
    the line built for a feature has the points of the single ring
    of the polygon built for it, and the same attributes. *)
Theorem shape_type_changes_only_the_kind (fuel : nat) (P : Parameters) (rl : RunLevel)
    (srcCRS : crs) (feature : QgsFeature) (pf : PerFeature) (f : QgsFeature) (n : Z) :
  shapetype P = 0%Z ->
  n <> 0%Z ->
  build_feature fuel P rl srcCRS feature pf = Ret f ->
  exists pts,
    geometry f = fromPolygonXY [pts]
    /\ build_feature fuel (with_shapetype n P) rl srcCRS feature pf
       = Ret (mkFeature (attributes f) (fromPolylineXY pts)).
Proof.
  intros Hp Hn Hb.
  rewrite build_feature_stages in Hb |- *.
  destruct (asPoint (geometry feature)) as [pt0 | e | ]; try discriminate. simpl in *.
  destruct (anchor srcCRS feature) as [pt | e | ]; try discriminate. simpl in *.
  destruct (sample_loop fuel (r pf) (lobes2 pf) (sangle pf) pt (step rl) 0 [])
    as [raw | e | ]; try discriminate. simpl in *.
  destruct (to_sink srcCRS (makeIdlCrossingsPositive raw)) as [pts | e | ];
    try discriminate. simpl in *.
  inversion Hb; subst f; clear Hb. exists pts.
  unfold shape. simpl. rewrite Hp. simpl.
  split; [reflexivity | ].
  destruct (n =? 0)%Z eqn:Hz; [apply Z.eqb_eq in Hz; contradiction | reflexivity].
Qed.

(** X10. The starting angle is added to the bearing of every sample
    and enters nothing else: with another starting angle the sample
    has the same distance, and the same bearing before the angle is
    added. *)
Theorem starting_angle_only_turns (rr : float) (l : Z) (sa angle a2 dist : float) :
  sample_pair rr l sa angle = Ret (a2, dist) ->
  exists base,
    a2 = base + sa
    /\ forall sa', sample_pair rr l sa' angle = Ret (base + sa', dist).
Proof.
  unfold sample_pair. intros H.
  bind_inv H. bind_inv H. bind_inv H. bind_inv H. bind_inv H. bind_inv H.
  inversion H; subst a2 dist; clear H.
  eexists. split; [reflexivity | ].
  intros sa'. rewrite Ha. simpl. rewrite Ha0. simpl. rewrite Ha1. simpl.
  rewrite Ha2. simpl. rewrite Ha3. simpl. rewrite Ha4. reflexivity.
Qed.

End Dependence.

(** ** Edges of the parameter resolver and of the values before the loop *)

Section Edges.

Context {host : Host}.

Variables (fuel : nat) (P : Parameters) (source : FeatureSource) (feedback : Feedback).

Abbreviation run := (processAlgorithm fuel P source feedback).

Open Scope float_scope.

(** The counter of bad features never goes down, and goes up by at
    most one for each feature whose parameters do not resolve. *)
Lemma loop_numbad_bounds (rl : RunLevel) (fs : list QgsFeature) :
  forall (st st' : LoopState) (s : status),
    feature_loop fuel P rl source feedback fs st = (s, st') ->
    (numbad st <= numbad st'
     <= numbad st + List.length (filter (rejected P rl (fields source)) fs))%nat.
Proof.
  induction fs as [| feature rest IH]; intros st st' s H.
  - simpl in H. inversion H; subst. simpl. lia.
  - simpl in H. unfold rejected, accepted. simpl.
    destruct (isCanceled feedback (checks st)).
    { inversion H; subst. simpl. lia. }
    destruct (resolve P rl (fields source) feature) as [pf | e | ].
    + destruct (build_feature fuel P rl (sourceCrs source) feature pf) as [f | e | ].
      * apply IH in H. unfold rejected, accepted in H. simpl in *. lia.
      * inversion H; subst. simpl. lia.
      * inversion H; subst. simpl. lia.
    + apply IH in H. unfold rejected, accepted in H. simpl in *. lia.
    + inversion H; subst. simpl. lia.
Qed.

(** Where every feature is rejected the sink stays as it is. *)
Lemma loop_all_rejected (rl : RunLevel) (fs : list QgsFeature) :
  (forall feature, In feature fs ->
     exists e, resolve P rl (fields source) feature = Raise e) ->
  forall (st st' : LoopState) (s : status),
    feature_loop fuel P rl source feedback fs st = (s, st') ->
    sink st' = sink st.
Proof.
  induction fs as [| feature rest IH]; intros Hall st st' s H.
  - simpl in H. inversion H. reflexivity.
  - simpl in H.
    destruct (isCanceled feedback (checks st)); [inversion H; reflexivity | ].
    destruct (Hall feature (or_introl eq_refl)) as [e He]. rewrite He in H.
    apply IH in H; [exact H | ].
    intros feature0 Hin. apply Hall. right. exact Hin.
Qed.

(** X11. With no override field configured, the parameters of every
    feature are the run's own: no feature is rejected, whatever its
    attributes, the counter of bad features stays 0 and no
    diagnostic is pushed. *)
Theorem no_override_no_rejection (rl : RunLevel) :
  Py.truthy (startanglecol P) = false ->
  Py.truthy (lobescol P) = false ->
  Py.truthy (radiuscol P) = false ->
  run_level P = Ret rl ->
  (forall fs feature,
     resolve P rl fs feature
     = Ret (mkPerFeature (startAngle P) (lobes P) (radius_m rl) (r2 rl)))
  /\ numbad (final run) = 0%nat
  /\ pushInfo run = None.
Proof.
  intros Hs Hl Hr Hrun.
  assert (Hres : forall fs feature,
             resolve P rl fs feature
             = Ret (mkPerFeature (startAngle P) (lobes P) (radius_m rl) (r2 rl))).
  { intros fs feature. unfold resolve. rewrite Hs, Hl, Hr. reflexivity. }
  split; [exact Hres | ].
  assert (Hbad : numbad (final run) = 0%nat).
  { unfold processAlgorithm. rewrite Hrun.
    destruct (feature_loop fuel P rl source feedback (getFeatures source) initial)
      as [s st] eqn:Hloop. simpl.
    apply loop_numbad_bounds in Hloop.
    assert (Hnone : forall l, filter (rejected P rl (fields source)) l = []).
    { intros l. induction l as [| feature rest IH]; [reflexivity | ].
      simpl. unfold rejected at 1. unfold accepted. rewrite Hres. simpl. exact IH. }
    rewrite Hnone in Hloop. simpl in Hloop. lia. }
  split; [exact Hbad | ].
  revert Hbad. unfold processAlgorithm. rewrite Hrun.
  destruct (feature_loop fuel P rl source feedback (getFeatures source) initial)
    as [s st]. simpl. intros Hbad. unfold report. rewrite Hbad.
  destruct s; reflexivity.
Qed.

Lemma getitem_missing (fs : list QgsField) (feature : QgsFeature) (col : string) :
  lookupField col fs 0 = None -> getitem fs feature col = Raise KeyError.
Proof.
  intros H. unfold getitem. rewrite H. reflexivity.
Qed.

(** X12. When a configured override field is no field of the layer,
    the lookup fails for every feature: nothing is written, and a
    run that reaches the end of the layer has counted every feature
    as bad. *)
Theorem missing_override_field_rejects_all (rl : RunLevel) :
  missing_field (fields source) (startanglecol P)
  \/ missing_field (fields source) (lobescol P)
  \/ missing_field (fields source) (radiuscol P) ->
  run_level P = Ret rl ->
  sink (final run) = []
  /\ (result run = Completed ->
      numbad (final run) = List.length (getFeatures source)).
Proof.
  intros Hmiss Hrun.
  assert (Hall : forall feature,
             exists e, resolve P rl (fields source) feature = Raise e).
  { intros feature.
    destruct Hmiss as [[Ht Hm] | [[Ht Hm] | [Ht Hm]]].
    - exists KeyError. apply resolve_raises_sangle.
      unfold sangle_of. rewrite Ht, (@getitem_missing (fields source) feature _ Hm). reflexivity.
    - apply resolve_raises_lobes with (e := KeyError).
      unfold lobes_of. rewrite Ht, (@getitem_missing (fields source) feature _ Hm). reflexivity.
    - apply resolve_raises_radius with (e := KeyError).
      unfold radius_of. rewrite Ht, (@getitem_missing (fields source) feature _ Hm). reflexivity. }
  unfold processAlgorithm. rewrite Hrun.
  destruct (feature_loop fuel P rl source feedback (getFeatures source) initial)
    as [s st] eqn:Hloop. simpl.
  assert (Hsink : sink st = []).
  { pose proof Hloop as H. apply loop_all_rejected in H; [exact H | ].
    intros feature _. apply Hall. }
  split; [exact Hsink | ].
  intros Hs. subst s.
  apply loop_invariant in Hloop. destruct Hloop as [new [Hnew [_ Hcount]]].
  destruct (Hcount eq_refl) as [Hn _]. simpl in *. subst new.
  rewrite Hsink in Hn. simpl in Hn. exact Hn.
Qed.

(** X13. The divisions made before the loop are not guarded: with a
    default lobe count of -2, also where a lobes field overrides it
    for every feature, or with 0 segments, the run ends with an
    exception before any feature is looked at; for -2 lobes the
    exception is the division by zero. *)
Theorem unguarded_divisions_before_the_loop :
  lobes P = (-2)%Z \/ segments P = 0%Z ->
  (exists e, result run = Failed e)
  /\ final run = initial
  /\ pushInfo run = None
  /\ (lobes P = (-2)%Z -> result run = Failed ZeroDivisionError).
Proof.
  intros Hedge.
  assert (Hlobes : lobes P = (-2)%Z -> run_level P = Raise ZeroDivisionError).
  { intros Hl. unfold run_level. rewrite Hl. reflexivity. }
  assert (Hraise : exists e, run_level P = Raise e).
  { destruct Hedge as [Hl | Hs]; [eauto | ].
    unfold run_level. rewrite Hs.
    destruct (float_of_int_returns_or_raises (lobes P)) as [[x Hx] | [e He]].
    - unfold Py.int_add_float. rewrite Hx. simpl.
      destruct (truediv_returns_or_raises
                  (radius P * conversionToMeters (units P)) (x + 2)) as [[y Hy] | [e He]];
        rewrite ?Hy, ?He; simpl; eauto.
    - unfold Py.int_add_float. rewrite He. simpl. eauto. }
  destruct Hraise as [e He].
  unfold processAlgorithm. rewrite He. simpl.
  split; [eauto | ]. split; [reflexivity | ]. split; [reflexivity | ].
  intros Hl. rewrite (Hlobes Hl) in He. inversion He. reflexivity.
Qed.

(** X14. For every segment count from 4 to 2000 the sampling loop
    ends within two turns more than the segments, having visited one
    angle more than the segments or exactly as many, never fewer and
    never an angle twice at the end; with that fuel no run is cut
    short. *)
Theorem sample_counts_up_to_2000_segments (rl : RunLevel) :
  In (segments P) segment_range ->
  run_level P = Ret rl ->
  (exists angles,
     sample_angles (Z.to_nat (segments P) + 2) (step rl) 0 = Ret angles
     /\ (List.length angles = (Z.to_nat (segments P) + 1)%nat
         \/ List.length angles = Z.to_nat (segments P)))
  /\ result (processAlgorithm (Z.to_nat (segments P) + 2) P source feedback) <> Timeout.
Proof.
  intros Hin Hrun.
  destruct segment_counts_up_to_2000 as [Hall _].
  rewrite forallb_forall in Hall. specialize (Hall _ Hin).
  pose proof Hrun as Hstep. apply run_level_step in Hstep.
  bind_inv Hstep.
  assert (Hang : exists angles,
             sample_angles (Z.to_nat (segments P) + 2) (step rl) 0 = Ret angles
             /\ (List.length angles = (Z.to_nat (segments P) + 1)%nat
                 \/ List.length angles = Z.to_nat (segments P))).
  { unfold closes, falls_short, sample_count in Hall.
    rewrite Ha in Hall. simpl in Hall. rewrite Hstep in Hall. simpl in Hall.
    destruct (sample_angles (Z.to_nat (segments P) + 2) (step rl) 0) as [angles | e | ];
      simpl in Hall; try discriminate.
    exists angles. split; [reflexivity | ].
    apply orb_true_iff in Hall. destruct Hall as [H | H];
      apply Nat.eqb_eq in H; [left | right]; exact H. }
  split; [exact Hang | ].
  destruct Hang as [angles [Hang _]].
  unfold processAlgorithm. rewrite Hrun.
  destruct (feature_loop (Z.to_nat (segments P) + 2) P rl source feedback
              (getFeatures source) initial) as [s st] eqn:Hloop. simpl.
  pose proof (@feature_loop_terminates host (Z.to_nat (segments P) + 2) P rl source
                feedback angles (getFeatures source) Hang initial) as Hnt.
  rewrite Hloop in Hnt. exact Hnt.
Qed.

End Edges.

(** ** The declared defaults *)

Section Defaults.

Context {host : Host}.

Open Scope float_scope.

(** X15. With every parameter at its declared default, whatever the
    unit table and the layer, the values before the loop are
    computed without an exception, the step is exactly 0.5, and the
    sampling loop visits 721 angles, the last of them exactly 360;
    with a fuel of 722 no run is cut short. *)
Theorem declared_defaults_sample_721_angles
    (source : FeatureSource) (feedback : Feedback) :
  exists rl,
    run_level declared_defaults = Ret rl
    /\ step rl = 0.5
    /\ (exists angles,
          sample_angles 722 (step rl) 0 = Ret angles
          /\ List.length angles = 721%nat
          /\ last angles 0 = 360)
    /\ result (processAlgorithm 722 declared_defaults source feedback) <> Timeout.
Proof.
  destruct default_segments_give_721_samples as [angles [Hang [Hlen Hlast]]].
  assert (Hrun : run_level declared_defaults
                 = Ret (mkRunLevel (conversionToMeters 0) (40 * conversionToMeters 0)
                          (40 * conversionToMeters 0 / 7) (360 / 720)))
    by reflexivity.
  exists (mkRunLevel (conversionToMeters 0) (40 * conversionToMeters 0)
            (40 * conversionToMeters 0 / 7) (360 / 720)).
  split; [exact Hrun | ].
  split; [reflexivity | ].
  split; [exists angles; split; [exact Hang | split; assumption] | ].
  unfold processAlgorithm. rewrite Hrun.
  destruct (feature_loop 722 declared_defaults
              (mkRunLevel (conversionToMeters 0) (40 * conversionToMeters 0)
                 (40 * conversionToMeters 0 / 7) (360 / 720))
              source feedback (getFeatures source) initial) as [s st] eqn:Hloop.
  pose proof (@feature_loop_terminates host 722 declared_defaults
                (mkRunLevel (conversionToMeters 0) (40 * conversionToMeters 0)
                   (40 * conversionToMeters 0 / 7) (360 / 720))
                source feedback angles (getFeatures source) Hang initial) as Hnt.
  rewrite Hloop in Hnt. exact Hnt.
Qed.

End Defaults.

(** ** The further properties at concrete layers *)

Section FurtherWitnesses.

Open Scope float_scope.

Lemma mixed_run_level :
  run_level (host := Demo.host) Demo.mixed_parameters
  = Ret (Demo.run_of Demo.mixed_parameters).
Proof. vm_compute. reflexivity. Qed.

Lemma mixed_run_completes : result Demo.mixed_run = Completed.
Proof. vm_compute. reflexivity. Qed.

(** Three features, one of them rejected: two written, one counted,
    three checks. *)
Lemma every_feature_is_written_or_counted_witness :
  result Demo.mixed_run = Completed
  /\ (List.length (sink (final Demo.mixed_run)) + numbad (final Demo.mixed_run)
      = List.length (getFeatures Demo.mixed_layer))%nat
  /\ checks (final Demo.mixed_run) = List.length (getFeatures Demo.mixed_layer).
Proof.
  split; [exact mixed_run_completes | ].
  exact (@every_feature_is_written_or_counted Demo.host 6 Demo.mixed_parameters
           (Demo.run_of Demo.mixed_parameters) Demo.mixed_layer Demo.never
           mixed_run_level mixed_run_completes).
Defined.

Lemma sink_follows_accepted_features_witness :
  filter (accepted (host := Demo.host) Demo.mixed_parameters
            (Demo.run_of Demo.mixed_parameters) (fields Demo.mixed_layer))
    (getFeatures Demo.mixed_layer) = [Demo.fa; Demo.fb]
  /\ Forall2 (fun feature f =>
                exists pt0,
                  geometry feature = PointGeometry pt0
                  /\ attributes f
                     = attributes feature
                       ++ (if export_geom Demo.mixed_parameters
                           then [QDouble (px pt0); QDouble (py pt0)] else []))
       (filter (accepted (host := Demo.host) Demo.mixed_parameters
                  (Demo.run_of Demo.mixed_parameters) (fields Demo.mixed_layer))
          (getFeatures Demo.mixed_layer))
       (sink (final Demo.mixed_run)).
Proof.
  split; [vm_compute; reflexivity | ].
  exact (@sink_follows_accepted_features Demo.host 6 Demo.mixed_parameters
           (Demo.run_of Demo.mixed_parameters) Demo.mixed_layer Demo.never
           mixed_run_level mixed_run_completes).
Defined.

Lemma bad_features_are_counted_and_reported_witness :
  numbad (final Demo.mixed_run) = 1%nat
  /\ numbad (final Demo.mixed_run)
     = List.length (filter (rejected (host := Demo.host) Demo.mixed_parameters
                              (Demo.run_of Demo.mixed_parameters) (fields Demo.mixed_layer))
                      (getFeatures Demo.mixed_layer))
  /\ pushInfo Demo.mixed_run
     = (if (0 <? numbad (final Demo.mixed_run))%nat
        then Some (numbad (final Demo.mixed_run), featureCount Demo.mixed_layer)
        else None).
Proof.
  split; [vm_compute; reflexivity | ].
  exact (@bad_features_are_counted_and_reported Demo.host 6 Demo.mixed_parameters
           (Demo.run_of Demo.mixed_parameters) Demo.mixed_layer Demo.never
           mixed_run_level mixed_run_completes).
Defined.

Lemma mixed_layer_arity :
  Forall (fun feature => List.length (attributes feature)
                         = List.length (fields Demo.mixed_layer))
    (getFeatures Demo.mixed_layer).
Proof. repeat constructor. Qed.

Lemma written_attributes_fit_sink_fields_witness :
  Forall (fun feature => List.length (attributes feature)
                         = List.length (fields Demo.mixed_layer))
    (getFeatures Demo.mixed_layer)
  /\ Forall (fun f => List.length (attributes f)
                      = List.length (sink_fields
                          (processAlgorithm (host := Demo.host) 6
                             (Demo.with_export Demo.mixed_parameters)
                             Demo.mixed_layer Demo.never)))
       (sink (final (processAlgorithm (host := Demo.host) 6
                       (Demo.with_export Demo.mixed_parameters)
                       Demo.mixed_layer Demo.never))).
Proof.
  split; [exact mixed_layer_arity | ].
  exact (@written_attributes_fit_sink_fields Demo.host 6
           (Demo.with_export Demo.mixed_parameters) Demo.mixed_layer Demo.never
           mixed_layer_arity).
Defined.

Lemma demo_normalizer_keeps_length (l : list QgsPointXY) :
  List.length (makeIdlCrossingsPositive (Host := Demo.host) l) = List.length l.
Proof.
  simpl. unfold Utils.makeIdlCrossingsPositive.
  destruct (Utils.hasIdlJump l); [apply length_map | reflexivity].
Qed.

Lemma demo_angles :
  sample_angles 6 (step (Demo.run_of Demo.mixed_parameters)) 0
  = Ret [0; 90; 180; 270; 360].
Proof. vm_compute. reflexivity. Qed.

(** Four segments: five points in each of the two rings. *)
Lemma rings_have_one_point_per_angle_witness :
  (1 <= List.length [0; 90; 180; 270; 360])%nat
  /\ Forall (fun f => List.length (shape_points (geometry f))
                      = List.length [0; 90; 180; 270; 360])
       (sink (final Demo.mixed_run)).
Proof.
  exact (@rings_have_one_point_per_angle Demo.host 6 Demo.mixed_parameters
           Demo.mixed_layer Demo.never (Demo.run_of Demo.mixed_parameters)
           [0; 90; 180; 270; 360] demo_normalizer_keeps_length mixed_run_level
           demo_angles).
Defined.

(** The mixed layer as [fa; f_text] followed by [fb]. *)
Lemma batches_compose_witness :
  feature_loop (host := Demo.host) 6 Demo.mixed_parameters
    (Demo.run_of Demo.mixed_parameters) Demo.mixed_layer Demo.never
    ([Demo.fa; Demo.f_text] ++ [Demo.fb]) initial
  = (Completed,
     mkState
       (sink (Demo.state_after 6 Demo.mixed_parameters Demo.never [Demo.fa; Demo.f_text])
        ++ sink (Demo.state_after 6 Demo.mixed_parameters Demo.never [Demo.fb]))
       (numbad (Demo.state_after 6 Demo.mixed_parameters Demo.never [Demo.fa; Demo.f_text])
        + numbad (Demo.state_after 6 Demo.mixed_parameters Demo.never [Demo.fb]))
       (checks (Demo.state_after 6 Demo.mixed_parameters Demo.never [Demo.fa; Demo.f_text])
        + checks (Demo.state_after 6 Demo.mixed_parameters Demo.never [Demo.fb]))).
Proof.
  apply (@batches_compose Demo.host 6 Demo.mixed_parameters
           (Demo.run_of Demo.mixed_parameters) Demo.mixed_layer Demo.never
           (fun i => eq_refl) [Demo.fa; Demo.f_text] [Demo.fb]
           (Demo.state_after 6 Demo.mixed_parameters Demo.never [Demo.fa; Demo.f_text])
           (Demo.state_after 6 Demo.mixed_parameters Demo.never [Demo.fb])
           Completed); vm_compute; reflexivity.
Defined.

(** The mixed layer is stored in EPSG:4326: a transform that always
    fails changes nothing. *)
Lemma geographic_layer_is_never_transformed_witness :
  sourceCrs Demo.mixed_layer = epsg4326
  /\ processAlgorithm (host := with_transform (fun _ _ _ => None) Demo.host) 6
       Demo.mixed_parameters Demo.mixed_layer Demo.never
     = Demo.mixed_run.
Proof.
  split; [reflexivity | ].
  exact (@geographic_layer_is_never_transformed Demo.host (fun _ _ _ => None) 6
           Demo.mixed_parameters Demo.mixed_layer Demo.never eq_refl).
Defined.

Lemma fa_is_built :
  build_feature (host := Demo.host) 6 Demo.defaults (Demo.run_of Demo.defaults)
    epsg4326 Demo.fa (Demo.resolved Demo.defaults (Demo.layer [Demo.fa]) Demo.fa)
  = Ret (Demo.built 6 Demo.defaults (Demo.layer [Demo.fa]) Demo.fa).
Proof. vm_compute. reflexivity. Qed.

(** The feature [fa] as a polygon and as a line. *)
Lemma shape_type_changes_only_the_kind_witness :
  exists pts,
    geometry (Demo.built 6 Demo.defaults (Demo.layer [Demo.fa]) Demo.fa)
    = fromPolygonXY [pts]
    /\ build_feature (host := Demo.host) 6 (with_shapetype 1 Demo.defaults)
         (Demo.run_of Demo.defaults) epsg4326 Demo.fa
         (Demo.resolved Demo.defaults (Demo.layer [Demo.fa]) Demo.fa)
       = Ret (mkFeature
                (attributes (Demo.built 6 Demo.defaults (Demo.layer [Demo.fa]) Demo.fa))
                (fromPolylineXY pts)).
Proof.
  apply (@shape_type_changes_only_the_kind Demo.host 6 Demo.defaults
           (Demo.run_of Demo.defaults) epsg4326 Demo.fa
           (Demo.resolved Demo.defaults (Demo.layer [Demo.fa]) Demo.fa)
           (Demo.built 6 Demo.defaults (Demo.layer [Demo.fa]) Demo.fa) 1%Z).
  - reflexivity.
  - discriminate.
  - exact fa_is_built.
Defined.

Lemma fa_first_pair :
  sample_pair (host := Demo.host)
    (r (Demo.resolved Demo.defaults (Demo.layer [Demo.fa]) Demo.fa))
    (lobes2 (Demo.resolved Demo.defaults (Demo.layer [Demo.fa]) Demo.fa))
    (sangle (Demo.resolved Demo.defaults (Demo.layer [Demo.fa]) Demo.fa)) 0
  = Ret (fst (Demo.first_pair Demo.defaults (Demo.layer [Demo.fa]) Demo.fa),
         snd (Demo.first_pair Demo.defaults (Demo.layer [Demo.fa]) Demo.fa)).
Proof. vm_compute. reflexivity. Qed.

(** The first sample of [fa]. *)
Lemma starting_angle_only_turns_witness :
  exists base,
    fst (Demo.first_pair Demo.defaults (Demo.layer [Demo.fa]) Demo.fa)
    = base + sangle (Demo.resolved Demo.defaults (Demo.layer [Demo.fa]) Demo.fa)
    /\ forall sa',
         sample_pair (host := Demo.host)
           (r (Demo.resolved Demo.defaults (Demo.layer [Demo.fa]) Demo.fa))
           (lobes2 (Demo.resolved Demo.defaults (Demo.layer [Demo.fa]) Demo.fa)) sa' 0
         = Ret (base + sa',
                snd (Demo.first_pair Demo.defaults (Demo.layer [Demo.fa]) Demo.fa)).
Proof.
  exact (@starting_angle_only_turns Demo.host
           (r (Demo.resolved Demo.defaults (Demo.layer [Demo.fa]) Demo.fa))
           (lobes2 (Demo.resolved Demo.defaults (Demo.layer [Demo.fa]) Demo.fa))
           (sangle (Demo.resolved Demo.defaults (Demo.layer [Demo.fa]) Demo.fa)) 0
           (fst (Demo.first_pair Demo.defaults (Demo.layer [Demo.fa]) Demo.fa))
           (snd (Demo.first_pair Demo.defaults (Demo.layer [Demo.fa]) Demo.fa))
           fa_first_pair).
Defined.

Lemma defaults_run_level :
  run_level (host := Demo.host) Demo.defaults = Ret (Demo.run_of Demo.defaults).
Proof. vm_compute. reflexivity. Qed.

(** The mixed layer read without any override field: the text in the
    lobes field is not looked at. *)
Lemma no_override_no_rejection_witness :
  numbad (final (processAlgorithm (host := Demo.host) 6 Demo.defaults
                   Demo.mixed_layer Demo.never)) = 0%nat
  /\ pushInfo (processAlgorithm (host := Demo.host) 6 Demo.defaults
                Demo.mixed_layer Demo.never) = None.
Proof.
  exact (proj2 (@no_override_no_rejection Demo.host 6 Demo.defaults Demo.mixed_layer
                  Demo.never (Demo.run_of Demo.defaults) eq_refl eq_refl eq_refl
                  defaults_run_level)).
Defined.

Lemma unknown_field_run_level :
  run_level (host := Demo.host) (Demo.with_unknown_lobes_field Demo.defaults)
  = Ret (Demo.run_of Demo.defaults).
Proof. vm_compute. reflexivity. Qed.

(** The mixed layer read with a lobes field it does not have. *)
Lemma missing_override_field_rejects_all_witness :
  missing_field (fields Demo.mixed_layer)
    (lobescol (Demo.with_unknown_lobes_field Demo.defaults))
  /\ sink (final (processAlgorithm (host := Demo.host) 6
                    (Demo.with_unknown_lobes_field Demo.defaults)
                    Demo.mixed_layer Demo.never)) = []
  /\ numbad (final (processAlgorithm (host := Demo.host) 6
                      (Demo.with_unknown_lobes_field Demo.defaults)
                      Demo.mixed_layer Demo.never)) = 3%nat.
Proof.
  assert (Hm : missing_field (fields Demo.mixed_layer)
                 (lobescol (Demo.with_unknown_lobes_field Demo.defaults)))
    by (split; reflexivity).
  split; [exact Hm | ].
  destruct (@missing_override_field_rejects_all Demo.host 6
              (Demo.with_unknown_lobes_field Demo.defaults) Demo.mixed_layer Demo.never
              (Demo.run_of Demo.defaults) (or_intror (or_introl Hm))
              unknown_field_run_level) as [Hsink Hbad].
  split; [exact Hsink | ].
  apply Hbad. vm_compute. reflexivity.
Defined.

(** A default of -2 lobes with the lobes field configured. *)
Lemma unguarded_divisions_witness :
  lobes (Demo.with_lobes (-2) Demo.mixed_parameters) = (-2)%Z
  /\ result (processAlgorithm (host := Demo.host) 6
               (Demo.with_lobes (-2) Demo.mixed_parameters) Demo.mixed_layer Demo.never)
     = Failed ZeroDivisionError
  /\ final (processAlgorithm (host := Demo.host) 6
              (Demo.with_lobes (-2) Demo.mixed_parameters) Demo.mixed_layer Demo.never)
     = initial.
Proof.
  split; [reflexivity | ].
  destruct (@unguarded_divisions_before_the_loop Demo.host 6
              (Demo.with_lobes (-2) Demo.mixed_parameters) Demo.mixed_layer Demo.never
              (or_introl eq_refl)) as [_ [Hfinal [_ Hzero]]].
  split; [exact (Hzero eq_refl) | exact Hfinal].
Defined.

Lemma four_in_segment_range : In 4%Z segment_range.
Proof. left. reflexivity. Qed.

(** Four segments. *)
Lemma sample_counts_witness :
  In (segments Demo.defaults) segment_range
  /\ (exists angles,
        sample_angles (Z.to_nat (segments Demo.defaults) + 2)
          (step (Demo.run_of Demo.defaults)) 0 = Ret angles
        /\ (List.length angles = (Z.to_nat (segments Demo.defaults) + 1)%nat
            \/ List.length angles = Z.to_nat (segments Demo.defaults)))
  /\ result (processAlgorithm (host := Demo.host)
               (Z.to_nat (segments Demo.defaults) + 2) Demo.defaults
               Demo.mixed_layer Demo.never) <> Timeout.
Proof.
  split; [exact four_in_segment_range | ].
  exact (@sample_counts_up_to_2000_segments Demo.host Demo.defaults Demo.mixed_layer
           Demo.never (Demo.run_of Demo.defaults) four_in_segment_range
           defaults_run_level).
Defined.

End FurtherWitnesses.

(** ** Progress reporting *)

Section ProgressFacts.

Context {host : Host}.

Variables (fuel : nat) (P : Parameters) (rl : RunLevel) (source : FeatureSource)
          (feedback : Feedback) (total : number).

Abbreviation loop := (feature_loop fuel P rl source feedback).
Abbreviation reporting := (feature_loop_reporting fuel P rl source feedback total).

(** The loop with reporting and the loop without it. *)
Lemma reporting_agrees (fs : list QgsFeature) :
  forall (index : nat) (st : LoopState) (progress : list Z),
    (forall i, (index <= i < index + List.length fs)%nat ->
               exists v, progress_of i total = Ret v) ->
    (fst (fst (reporting index fs st progress)), snd (fst (reporting index fs st progress)))
    = loop fs st.
Proof.
  induction fs as [| feature rest IH]; intros index st progress Hv; [reflexivity | ].
  assert (Hrest : forall i, (S index <= i < S index + List.length rest)%nat ->
                            exists v, progress_of i total = Ret v).
  { intros i Hi. apply Hv. simpl. lia. }
  simpl.
  destruct (isCanceled feedback (checks st)); [reflexivity | ].
  destruct (resolve P rl (fields source) feature) as [pf | e | ];
    [ | apply IH; exact Hrest | reflexivity].
  destruct (build_feature fuel P rl (sourceCrs source) feature pf) as [f | e | ];
    [ | reflexivity | reflexivity].
  destruct (every_hundredth index); [ | apply IH; exact Hrest].
  destruct (Hv index) as [v Hvi]; [simpl; lia | ].
  rewrite Hvi. apply IH. exact Hrest.
Qed.

(** X16. Reporting progress changes neither what is written nor what
    is counted: as long as the progress value can be computed at
    every index of the layer, the loop with reporting, run over the
    whole layer, ends as the loop without it and in the same state. *)
Theorem reporting_changes_nothing (progress : list Z) :
  (forall i, (i < List.length (getFeatures source))%nat ->
             exists v, progress_of i total = Ret v) ->
  (fst (fst (reporting 0 (getFeatures source) initial progress)),
   snd (fst (reporting 0 (getFeatures source) initial progress)))
  = loop (getFeatures source) initial.
Proof.
  intros Hv. apply reporting_agrees.
  intros i Hi. apply Hv. lia.
Qed.

(** X17. A loop that reaches the end of the layer has reported
    progress exactly at the indices, in increasing order, of the
    features it wrote that are multiples of 100; it reports nothing
    for a rejected feature, and the values are [int(index * total)]. *)
Theorem progress_is_reported_for_written_hundreds (fs : list QgsFeature) :
  forall (index : nat) (st st' : LoopState) (progress progress' : list Z),
    reporting index fs st progress = (Completed, st', progress') ->
    exists values,
      mapM (fun i => progress_of i total)
        (reporting_indices P rl (fields source) index fs) = Ret values
      /\ progress' = progress ++ values
      /\ Forall (fun i => (i mod 100 = 0)%nat /\ (index <= i < index + List.length fs)%nat)
           (reporting_indices P rl (fields source) index fs).
Proof.
  induction fs as [| feature rest IH]; intros index st st' progress progress' H.
  - simpl in H. inversion H; subst. exists []. simpl. rewrite app_nil_r.
    split; [reflexivity | ]. split; [reflexivity | constructor].
  - simpl in H. simpl. unfold accepted.
    destruct (isCanceled feedback (checks st)); [discriminate | ].
    assert (Hshift : forall l,
               Forall (fun i => (i mod 100 = 0)%nat
                                /\ (S index <= i < S index + List.length rest)%nat) l ->
               Forall (fun i => (i mod 100 = 0)%nat
                                /\ (index <= i < index + S (List.length rest))%nat) l).
    { intros l Hl. eapply Forall_impl; [ | exact Hl].
      intros i [Hm Hi]. split; [exact Hm | lia]. }
    destruct (resolve P rl (fields source) feature) as [pf | e | ]; try discriminate.
    + destruct (build_feature fuel P rl (sourceCrs source) feature pf) as [f | e | ];
        try discriminate.
      destruct (every_hundredth index) eqn:Hmod; simpl.
      * destruct (progress_of index total) as [v | e | ] eqn:Hv; try discriminate.
        apply IH in H. destruct H as [values [Hmap [Hprog Hall]]].
        exists (v :: values). rewrite Hmap. simpl.
        split; [reflexivity | ].
        split; [rewrite Hprog, <- app_assoc; reflexivity | ].
        constructor; [ | apply Hshift; exact Hall].
        unfold every_hundredth in Hmod. apply Nat.eqb_eq in Hmod.
        split; [exact Hmod | lia].
      * apply IH in H. destruct H as [values [Hmap [Hprog Hall]]].
        exists values. split; [exact Hmap | ].
        split; [exact Hprog | apply Hshift; exact Hall].
    + simpl. apply IH in H. destruct H as [values [Hmap [Hprog Hall]]].
      exists values. split; [exact Hmap | ].
      split; [exact Hprog | apply Hshift; exact Hall].
Qed.

End ProgressFacts.

Section ProgressEdges.

Context {host : Host}.

(** The values reported with the integer total 0 are all 0. *)
Lemma zero_total_reports_zeros (fuel : nat) (P : Parameters) (rl : RunLevel)
    (source : FeatureSource) (feedback : Feedback) (fs : list QgsFeature) :
  forall (index : nat) (st : LoopState) (progress : list Z),
    exists values,
      snd (feature_loop_reporting fuel P rl source feedback (IntNum 0) index fs st progress)
      = progress ++ values
      /\ Forall (fun v => v = 0%Z) values.
Proof.
  induction fs as [| feature rest IH]; intros index st progress.
  - exists []. simpl. rewrite app_nil_r. split; [reflexivity | constructor].
  - assert (Hnone : exists values, progress = progress ++ values
                                   /\ Forall (fun v => v = 0%Z) values).
    { exists []. rewrite app_nil_r. split; [reflexivity | constructor]. }
    simpl.
    destruct (isCanceled feedback (checks st)); [exact Hnone | ].
    destruct (resolve P rl (fields source) feature) as [pf | e | ];
      [ | apply IH | exact Hnone].
    destruct (build_feature fuel P rl (sourceCrs source) feature pf) as [f | e | ];
      [ | exact Hnone | exact Hnone].
    destruct (every_hundredth index); [ | apply IH].
    rewrite Z.mul_0_r.
    destruct (IH (S index) (addFeature f (bump_check st)) (progress ++ [0%Z]))
      as [values [Hprog Hall]].
    exists (0%Z :: values). rewrite Hprog, <- app_assoc.
    split; [reflexivity | constructor; [reflexivity | exact Hall]].
Qed.

(** X18. A source that announces no feature is guarded against: the
    total is the integer 0 and no division is made; whatever the
    iterator then yields, every progress value is 0, none raises, and
    the loop ends as it does without reporting. *)
Theorem zero_feature_count_is_guarded (fuel : nat) (P : Parameters) (rl : RunLevel)
    (source : FeatureSource) (feedback : Feedback) (fs : list QgsFeature)
    (index : nat) (st : LoopState) (progress : list Z) :
  total_of 0 = Ret (IntNum 0)
  /\ (fst (fst (feature_loop_reporting fuel P rl source feedback (IntNum 0) index fs
                  st progress)),
      snd (fst (feature_loop_reporting fuel P rl source feedback (IntNum 0) index fs
                  st progress)))
     = feature_loop fuel P rl source feedback fs st
  /\ exists values,
       snd (feature_loop_reporting fuel P rl source feedback (IntNum 0) index fs st progress)
       = progress ++ values
       /\ Forall (fun v => v = 0%Z) values.
Proof.
  split; [reflexivity | ].
  split; [ | apply zero_total_reports_zeros].
  apply reporting_agrees. intros i _. simpl. eauto.
Qed.

End ProgressEdges.

Section ProgressWitnesses.

Lemma demo_progress_values (i : nat) :
  (i < List.length (getFeatures Demo.mixed_layer))%nat ->
  exists v, progress_of i demo_total = Ret v.
Proof.
  intros Hi. simpl in Hi.
  destruct i as [| [| [| i]]]; [ | | | lia]; eexists; vm_compute; reflexivity.
Qed.

(** The mixed layer with a total of 100.0 / 3. *)
Lemma reporting_changes_nothing_witness :
  (fst (fst demo_reporting), snd (fst demo_reporting))
  = feature_loop (host := Demo.host) 6 Demo.mixed_parameters
      (Demo.run_of Demo.mixed_parameters) Demo.mixed_layer Demo.never
      (getFeatures Demo.mixed_layer) initial.
Proof.
  exact (@reporting_changes_nothing Demo.host 6 Demo.mixed_parameters
           (Demo.run_of Demo.mixed_parameters) Demo.mixed_layer Demo.never demo_total
           [] demo_progress_values).
Defined.

Lemma demo_reporting_completes :
  demo_reporting = (Completed, final Demo.mixed_run, [0%Z]).
Proof. vm_compute. reflexivity. Qed.

(** One report, at index 0, for the first of the three features. *)
Lemma progress_is_reported_witness :
  reporting_indices (host := Demo.host) Demo.mixed_parameters
    (Demo.run_of Demo.mixed_parameters) (fields Demo.mixed_layer) 0
    (getFeatures Demo.mixed_layer) = [0%nat]
  /\ exists values,
       mapM (fun i => progress_of i demo_total)
         (reporting_indices (host := Demo.host) Demo.mixed_parameters
            (Demo.run_of Demo.mixed_parameters) (fields Demo.mixed_layer) 0
            (getFeatures Demo.mixed_layer)) = Ret values
       /\ [0%Z] = [] ++ values
       /\ Forall (fun i => (i mod 100 = 0)%nat
                           /\ (0 <= i < 0 + List.length (getFeatures Demo.mixed_layer))%nat)
            (reporting_indices (host := Demo.host) Demo.mixed_parameters
               (Demo.run_of Demo.mixed_parameters) (fields Demo.mixed_layer) 0
               (getFeatures Demo.mixed_layer)).
Proof.
  split; [vm_compute; reflexivity | ].
  exact (@progress_is_reported_for_written_hundreds Demo.host 6 Demo.mixed_parameters
           (Demo.run_of Demo.mixed_parameters) Demo.mixed_layer Demo.never demo_total
           (getFeatures Demo.mixed_layer) 0 initial (final Demo.mixed_run) [] [0%Z]
           demo_reporting_completes).
Defined.

End ProgressWitnesses.
